(** * Price elasticity estimation and price optimisation

    A shallow embedding of [src/utils/elasticity.ts]: the log-log
    least-squares estimator [calculateElasticity] and the fixed-offset
    heuristic [optimizePrice].

    Number model.  A TypeScript [number] is a binary64 double.  The laws
    of the estimator are stated over its exact-arithmetic idealisation: an
    extended real, that is a finite value carried by a real of the standard
    library, the two infinities and NaN.  Arithmetic on finite values is
    exact there (no rounding, no overflow, no underflow); the special values
    follow IEEE-754 and the ECMAScript definitions of [Math.log],
    [Math.pow], [Math.abs] and [isFinite].  The two zeros are identified:
    the only primitive that tells them apart is the division of a non-zero
    value by zero, which takes the divisor to be [+0].  A statement that
    holds of the idealisation and of the program only up to rounding says
    so.  The module [Binary64] is the estimator over binary64 itself, and
    evaluates it where rounding decides the outcome.

    Dates.  [new Date(s).getTime()] is a parameter [getTime] of the
    estimator, from date strings to integral time stamps: the strings are
    taken to be valid dates, for which the comparator of the sort is
    consistent and the stable order it produces is unique.

    Heap model.  [Array.prototype.sort] sorts the receiver in place and
    returns it, so [calculateElasticity] returns, next to its result, the
    contents of the caller's array after the call. *)

From Stdlib Require Import Reals Lra Lia List String ZArith Bool Arith.
From Stdlib Require Import Permutation Sorted.
From Stdlib Require Import Floats.PrimFloat Floats.SpecFloat Floats.FloatOps Uint63.
Import ListNotations.

Open Scope R_scope.

(** ** Numbers *)

(** A double in exact arithmetic.  On finite values [add], [sub], [mul],
    [div], [Math_log] and [Math_pow] below return the exact real, where the
    program returns it rounded to binary64. *)
Inductive number : Type :=
| Num (r : R)
| PosInfinity
| NegInfinity
| NaN.

Definition Rltb (x y : R) : bool := if Rlt_dec x y then true else false.
Definition Reqb (x y : R) : bool := if Req_dec_T x y then true else false.

(** [Infinity * x] for a finite [x]. *)
Definition inf_signed (x : R) : number :=
  if Rltb 0 x then PosInfinity
  else if Rltb x 0 then NegInfinity
  else NaN.

Definition neg (a : number) : number :=
  match a with
  | Num x => Num (- x)
  | PosInfinity => NegInfinity
  | NegInfinity => PosInfinity
  | NaN => NaN
  end.

(** [a + b] *)
Definition add (a b : number) : number :=
  match a, b with
  | NaN, _ | _, NaN => NaN
  | Num x, Num y => Num (x + y)
  | PosInfinity, NegInfinity | NegInfinity, PosInfinity => NaN
  | PosInfinity, _ | _, PosInfinity => PosInfinity
  | NegInfinity, _ | _, NegInfinity => NegInfinity
  end.

(** [a - b] *)
Definition sub (a b : number) : number := add a (neg b).

(** [a * b] *)
Definition mul (a b : number) : number :=
  match a, b with
  | NaN, _ | _, NaN => NaN
  | Num x, Num y => Num (x * y)
  | Num x, PosInfinity | PosInfinity, Num x => inf_signed x
  | Num x, NegInfinity | NegInfinity, Num x => inf_signed (- x)
  | PosInfinity, PosInfinity | NegInfinity, NegInfinity => PosInfinity
  | PosInfinity, NegInfinity | NegInfinity, PosInfinity => NegInfinity
  end.

(** [a / b] *)
Definition div (a b : number) : number :=
  match a, b with
  | NaN, _ | _, NaN => NaN
  | Num x, Num y => if Reqb y 0 then inf_signed x else Num (x / y)
  | Num _, (PosInfinity | NegInfinity) => Num 0
  | PosInfinity, Num y => if Rltb y 0 then NegInfinity else PosInfinity
  | NegInfinity, Num y => if Rltb y 0 then PosInfinity else NegInfinity
  | (PosInfinity | NegInfinity), (PosInfinity | NegInfinity) => NaN
  end.

(** [a > b] *)
Definition gt (a b : number) : bool :=
  match a, b with
  | NaN, _ | _, NaN => false
  | Num x, Num y => Rltb y x
  | PosInfinity, PosInfinity => false
  | PosInfinity, _ => true
  | _, NegInfinity => match a with NegInfinity => false | _ => true end
  | _, _ => false
  end.

(** [a === b] *)
Definition strict_eq (a b : number) : bool :=
  match a, b with
  | Num x, Num y => Reqb x y
  | PosInfinity, PosInfinity | NegInfinity, NegInfinity => true
  | _, _ => false
  end.

Definition isFinite (a : number) : bool :=
  match a with Num _ => true | _ => false end.

Definition Math_abs (a : number) : number :=
  match a with
  | Num x => Num (Rabs x)
  | PosInfinity | NegInfinity => PosInfinity
  | NaN => NaN
  end.

Definition Math_log (a : number) : number :=
  match a with
  | Num x =>
      if Rltb x 0 then NaN
      else if Reqb x 0 then NegInfinity
      else Num (ln x)
  | PosInfinity => PosInfinity
  | NegInfinity | NaN => NaN
  end.

(** A real is an integer when it equals its integer part; [Math.pow] looks
    at the parity of an integral exponent when the base is negative. *)
Definition is_integer (y : R) : bool := Reqb y (IZR (Int_part y)).
Definition is_odd_integer (y : R) : bool := is_integer y && Z.odd (Int_part y).

(** [Math.pow(base, exponent)], clause by clause as in ECMAScript's
    Number::exponentiate. *)
Definition Math_pow (base exponent : number) : number :=
  match exponent with
  | NaN => NaN
  | Num y =>
      if Reqb y 0 then Num 1
      else match base with
           | NaN => NaN
           | PosInfinity => if Rltb 0 y then PosInfinity else Num 0
           | NegInfinity =>
               if Rltb 0 y
               then (if is_odd_integer y then NegInfinity else PosInfinity)
               else Num 0
           | Num x =>
               if Reqb x 0 then (if Rltb 0 y then Num 0 else PosInfinity)
               else if Rltb 0 x then Num (Rpower x y)
               else if is_integer y
                    then Num ((if Z.odd (Int_part y) then -1 else 1) * Rpower (- x) y)
                    else NaN
           end
  | PosInfinity =>
      match base with
      | NaN => NaN
      | PosInfinity | NegInfinity => PosInfinity
      | Num x =>
          if Rltb 1 (Rabs x) then PosInfinity
          else if Reqb (Rabs x) 1 then NaN
          else Num 0
      end
  | NegInfinity =>
      match base with
      | NaN => NaN
      | PosInfinity | NegInfinity => Num 0
      | Num x =>
          if Rltb 1 (Rabs x) then Num 0
          else if Reqb (Rabs x) 1 then NaN
          else PosInfinity
      end
  end.

(** ** Data model *)

Module SalesDataPoint.
Record t : Type := mk {
  price : number;
  quantity_sold : number;
  product_name : string;
  category : string;
  sale_date : string
}.
End SalesDataPoint.

Module ElasticityResult.
Record t : Type := mk {
  elasticity : number;
  r_squared : number;
  is_elastic : bool;
  product_name : string;
  category : string;
  current_price : number;
  recommended_price : number;
  expected_revenue_change : number
}.
End ElasticityResult.

(** The anonymous object built by the [map] callback of line 31. *)
Module LogPoint.
Record t : Type := mk {
  logPrice : number;
  logQuantity : number;
  price : number;
  quantity : number
}.
End LogPoint.

(** ** Arrays *)

(** [Array.prototype.sort(comparefn)]: a stable sort in which [a] goes after
    [b] when [comparefn(a, b) > 0]. *)
Section ArraySort.
Context {A : Type} (comparefn : A -> A -> number).

Fixpoint sort_insert (a : A) (l : list A) : list A :=
  match l with
  | [] => [a]
  | b :: l' =>
      if gt (comparefn a b) (Num 0) then b :: sort_insert a l' else a :: l
  end.

Fixpoint Array_sort (l : list A) : list A :=
  match l with
  | [] => []
  | a :: l' => sort_insert a (Array_sort l')
  end.
End ArraySort.

(** [arr.reduce((acc, x, i) => f(acc, x, i), init)] *)
Fixpoint reduce_from {A B : Type} (f : B -> A -> nat -> B) (i : nat)
         (l : list A) (acc : B) : B :=
  match l with
  | [] => acc
  | x :: l' => reduce_from f (S i) l' (f acc x i)
  end.

Definition reduce_i {A B : Type} (f : B -> A -> nat -> B) (l : list A) (init : B) : B :=
  reduce_from f 0 l init.

(** [arr[i]] read as a number: a hole reads [undefined], which arithmetic
    turns into NaN. *)
Definition array_get (arr : list number) (i : nat) : number := nth i arr NaN.

(** What an element read past the end of the array stands for; the reads of
    [calculateElasticity] are all within bounds (the array has at least two
    elements when they happen). *)
Definition no_element : SalesDataPoint.t := SalesDataPoint.mk NaN NaN EmptyString EmptyString EmptyString.

(** ** calculateElasticity *)

Section Elasticity.

(** [new Date(s).getTime()]: the time stamp, in milliseconds, of a valid
    date string. *)
Variable getTime : string -> Z.

Definition byDate (a b : SalesDataPoint.t) : number :=
  sub (Num (IZR (getTime (SalesDataPoint.sale_date a))))
      (Num (IZR (getTime (SalesDataPoint.sale_date b)))).

Definition toLogPoint (point : SalesDataPoint.t) : LogPoint.t :=
  {| LogPoint.logPrice := Math_log (SalesDataPoint.price point);
     LogPoint.logQuantity := Math_log (SalesDataPoint.quantity_sold point);
     LogPoint.price := SalesDataPoint.price point;
     LogPoint.quantity := SalesDataPoint.quantity_sold point |}.

Definition finiteLogs (point : LogPoint.t) : bool :=
  isFinite (LogPoint.logPrice point) && isFinite (LogPoint.logQuantity point).

(** The loop of lines 49-54 on the pair (numerator, denominator). *)
Definition slope_step (meanLogPrice meanLogQuantity : number)
           (acc : number * number) (point : LogPoint.t) : number * number :=
  let priceDeviation := sub (LogPoint.logPrice point) meanLogPrice in
  let quantityDeviation := sub (LogPoint.logQuantity point) meanLogQuantity in
  (add (fst acc) (mul priceDeviation quantityDeviation),
   add (snd acc) (mul priceDeviation priceDeviation)).

(** The second component is the caller's array after the call: [sort]
    works in place, so from line 28 on [dataPoints] and [sortedData] are
    the same, sorted, array. *)
Definition calculateElasticity (dataPoints : list SalesDataPoint.t)
  : option ElasticityResult.t * list SalesDataPoint.t :=
  if (List.length dataPoints <? 2)%nat then (None, dataPoints) else
  let sortedData := Array_sort byDate dataPoints in
  let dataPoints := sortedData in
  let logPoints := filter finiteLogs (map toLogPoint sortedData) in
  if (List.length logPoints <? 2)%nat then (None, dataPoints) else
  let n := Num (INR (List.length logPoints)) in
  let meanLogPrice :=
    div (fold_left (fun sum p => add sum (LogPoint.logPrice p)) logPoints (Num 0)) n in
  let meanLogQuantity :=
    div (fold_left (fun sum p => add sum (LogPoint.logQuantity p)) logPoints (Num 0)) n in
  let '(numerator, denominator) :=
    fold_left (slope_step meanLogPrice meanLogQuantity) logPoints (Num 0, Num 0) in
  if strict_eq denominator (Num 0) then (None, dataPoints) else
  let elasticity := div numerator denominator in
  let predicted :=
    map (fun point =>
           add meanLogQuantity
               (mul elasticity (sub (LogPoint.logPrice point) meanLogPrice)))
        logPoints in
  let totalSumSquares :=
    fold_left (fun sum point =>
                 add sum (Math_pow (sub (LogPoint.logQuantity point) meanLogQuantity) (Num 2)))
              logPoints (Num 0) in
  let residualSumSquares :=
    reduce_i (fun sum point i =>
                add sum (Math_pow (sub (LogPoint.logQuantity point) (array_get predicted i)) (Num 2)))
             logPoints (Num 0) in
  let r_squared :=
    if gt totalSumSquares (Num 0)
    then sub (Num 1) (div residualSumSquares totalSumSquares)
    else Num 0 in
  let is_elastic := gt (Math_abs elasticity) (Num 1) in
  let latest := nth (List.length sortedData - 1) sortedData no_element in
  let current_price := SalesDataPoint.price latest in
  let current_quantity := SalesDataPoint.quantity_sold latest in
  let '(recommended_price, expected_revenue_change) :=
    if is_elastic then
      let recommended_price := mul current_price (Num 0.9) in
      let predicted_quantity :=
        mul current_quantity (Math_pow (div recommended_price current_price) elasticity) in
      let current_revenue := mul current_price current_quantity in
      let predicted_revenue := mul recommended_price predicted_quantity in
      (recommended_price,
       mul (div (sub predicted_revenue current_revenue) current_revenue) (Num 100))
    else
      let recommended_price := mul current_price (Num 1.1) in
      let predicted_quantity :=
        mul current_quantity (Math_pow (div recommended_price current_price) elasticity) in
      let current_revenue := mul current_price current_quantity in
      let predicted_revenue := mul recommended_price predicted_quantity in
      (recommended_price,
       mul (div (sub predicted_revenue current_revenue) current_revenue) (Num 100)) in
  let first := nth 0 dataPoints no_element in
  (Some {| ElasticityResult.elasticity := elasticity;
           ElasticityResult.r_squared := r_squared;
           ElasticityResult.is_elastic := is_elastic;
           ElasticityResult.product_name := SalesDataPoint.product_name first;
           ElasticityResult.category := SalesDataPoint.category first;
           ElasticityResult.current_price := current_price;
           ElasticityResult.recommended_price := recommended_price;
           ElasticityResult.expected_revenue_change := expected_revenue_change |},
   dataPoints).

End Elasticity.

(** ** optimizePrice *)

Inductive OptimizationTarget : Type := revenue | profit.

(** The two trailing parameters are optional; an omitted argument takes the
    default of the signature ([0] and ['revenue']). *)
Record OptimizationResult : Type := {
  optimal_price : number;
  expected_change : number
}.

Definition optimizePrice (elasticity currentPrice currentQuantity : number)
           (costPerUnit_arg : option number)
           (optimizationTarget_arg : option OptimizationTarget)
  : OptimizationResult :=
  let costPerUnit := match costPerUnit_arg with Some c => c | None => Num 0 end in
  let optimizationTarget :=
    match optimizationTarget_arg with Some t => t | None => revenue end in
  match optimizationTarget with
  | revenue =>
      if gt (Math_abs elasticity) (Num 1) then
        let optimal_price := mul currentPrice (Num 0.85) in
        let predicted_quantity :=
          mul currentQuantity (Math_pow (div optimal_price currentPrice) elasticity) in
        let current_revenue := mul currentPrice currentQuantity in
        let predicted_revenue := mul optimal_price predicted_quantity in
        let expected_change :=
          mul (div (sub predicted_revenue current_revenue) current_revenue) (Num 100) in
        {| optimal_price := optimal_price; expected_change := expected_change |}
      else
        let optimal_price := mul currentPrice (Num 1.15) in
        let predicted_quantity :=
          mul currentQuantity (Math_pow (div optimal_price currentPrice) elasticity) in
        let current_revenue := mul currentPrice currentQuantity in
        let predicted_revenue := mul optimal_price predicted_quantity in
        let expected_change :=
          mul (div (sub predicted_revenue current_revenue) current_revenue) (Num 100) in
        {| optimal_price := optimal_price; expected_change := expected_change |}
  | profit =>
      let optimal_price :=
        mul currentPrice
            (if gt (Math_abs elasticity) (Num 1) then Num 0.9 else Num 1.2) in
      let predicted_quantity :=
        mul currentQuantity (Math_pow (div optimal_price currentPrice) elasticity) in
      let current_profit := mul (sub currentPrice costPerUnit) currentQuantity in
      let predicted_profit := mul (sub optimal_price costPerUnit) predicted_quantity in
      let expected_change :=
        if gt current_profit (Num 0)
        then mul (div (sub predicted_profit current_profit) current_profit) (Num 100)
        else Num 0 in
      {| optimal_price := optimal_price; expected_change := expected_change |}
  end.

(** ** Specification-side definitions

    The quantities the specification names, over the reals. *)

Definition Rsum (l : list R) : R := fold_right Rplus 0 l.

Definition mean (l : list R) : R := Rsum l / INR (List.length l).

Section LeastSquares.
(** The regression set: pairs (ln price, ln quantity). *)
Variable pts : list (R * R).

Definition mp : R := mean (map fst pts).
Definition mq : R := mean (map snd pts).
Definition Sxy : R := Rsum (map (fun p => (fst p - mp) * (snd p - mq)) pts).
Definition Sxx : R := Rsum (map (fun p => (fst p - mp) * (fst p - mp)) pts).
Definition Syy : R := Rsum (map (fun p => (snd p - mq) * (snd p - mq)) pts).
Definition ols_slope : R := Sxy / Sxx.
Definition residual (p : R * R) : R := snd p - (mq + ols_slope * (fst p - mp)).
Definition RSS : R := Rsum (map (fun p => residual p * residual p) pts).
Definition goodness_of_fit : R := if Rltb 0 Syy then 1 - RSS / Syy else 0.
End LeastSquares.

(** An observation survives the finite-log filter when its price and its
    quantity are finite and positive. *)
Definition positive (a : number) : bool :=
  match a with Num x => Rltb 0 x | _ => false end.

Definition usable (p : SalesDataPoint.t) : bool :=
  positive (SalesDataPoint.price p) && positive (SalesDataPoint.quantity_sold p).

Definition real_of (a : number) : R :=
  match a with Num x => x | _ => 0 end.

Definition log_pair (p : SalesDataPoint.t) : R * R :=
  (ln (real_of (SalesDataPoint.price p)), ln (real_of (SalesDataPoint.quantity_sold p))).

Definition regression_set (dataPoints : list SalesDataPoint.t) : list (R * R) :=
  map log_pair (filter usable dataPoints).

(** The constant-elasticity revenue change, in percent, of moving from
    [current_price] to [new_price]. *)
Definition revenue_change_pct (elasticity current_price current_quantity new_price : number)
  : number :=
  let predicted_quantity :=
    mul current_quantity (Math_pow (div new_price current_price) elasticity) in
  mul (div (sub (mul new_price predicted_quantity) (mul current_price current_quantity))
           (mul current_price current_quantity))
      (Num 100).

(** The estimate in closed form, from the regression set and the two
    observations the labels and the current price are read from. *)
Definition estimate (pts : list (R * R)) (first latest : SalesDataPoint.t)
  : ElasticityResult.t :=
  let e := ols_slope pts in
  let elastic := Rltb 1 (Rabs e) in
  let current_price := SalesDataPoint.price latest in
  let recommended_price := mul current_price (Num (if elastic then 0.9 else 1.1)) in
  {| ElasticityResult.elasticity := Num e;
     ElasticityResult.r_squared := Num (goodness_of_fit pts);
     ElasticityResult.is_elastic := elastic;
     ElasticityResult.product_name := SalesDataPoint.product_name first;
     ElasticityResult.category := SalesDataPoint.category first;
     ElasticityResult.current_price := current_price;
     ElasticityResult.recommended_price := recommended_price;
     ElasticityResult.expected_revenue_change :=
       revenue_change_pct (Num e) current_price
                          (SalesDataPoint.quantity_sold latest) recommended_price |}.

(** The fixed offsets of [optimizePrice]. *)
Definition offset (target : OptimizationTarget) (elastic : bool) : R :=
  match target, elastic with
  | revenue, true => 0.85
  | revenue, false => 1.15
  | profit, true => 0.9
  | profit, false => 1.2
  end.

(** The finite-log points as pairs of reals. *)
Definition pt_of (lp : LogPoint.t) : R * R :=
  (real_of (LogPoint.logPrice lp), real_of (LogPoint.logQuantity lp)).

Definition all_finite (lps : list LogPoint.t) : Prop :=
  forall lp, In lp lps ->
    LogPoint.logPrice lp = Num (fst (pt_of lp)) /\
    LogPoint.logQuantity lp = Num (snd (pt_of lp)).

(** The time stamp of an observation, and the order the sort establishes. *)
Definition time_of (getTime : string -> Z) (p : SalesDataPoint.t) : Z :=
  getTime (SalesDataPoint.sale_date p).

Definition not_later (getTime : string -> Z) (a b : SalesDataPoint.t) : Prop :=
  (time_of getTime a <= time_of getTime b)%Z.

(** Degenerate input, in the words of the specification. *)
Definition degenerate (dataPoints : list SalesDataPoint.t) : Prop :=
  (List.length dataPoints < 2)%nat \/
  (List.length (regression_set dataPoints) < 2)%nat \/
  Sxx (regression_set dataPoints) = 0.

(** The sign of a baseline profit. *)
Definition zero_or_negative (a : number) : Prop :=
  match a with Num x => x <= 0 | NegInfinity => True | _ => False end.

Definition strictly_positive (a : number) : Prop :=
  match a with Num x => 0 < x | PosInfinity => True | _ => False end.

(** ** Dates

    [new Date(s).getTime()] for a date-only ISO string [YYYY-MM-DD], which
    ECMAScript reads as midnight UTC: milliseconds since 1970-01-01. *)

Open Scope Z_scope.

Definition digit_value (c : Ascii.ascii) : Z := Z.of_nat (Ascii.nat_of_ascii c) - 48.

Fixpoint decimal (s : string) (acc : Z) : Z :=
  match s with
  | EmptyString => acc
  | String c s' => decimal s' (10 * acc + digit_value c)
  end.

Definition days_from_civil (y m d : Z) : Z :=
  let y' := if m <=? 2 then y - 1 else y in
  let era := y' / 400 in
  let yoe := y' - era * 400 in
  let doy := (153 * (if m >? 2 then m - 3 else m + 9) + 2) / 5 + d - 1 in
  let doe := yoe * 365 + yoe / 4 - yoe / 100 + doy in
  era * 146097 + doe - 719468.

Definition isoTime (s : string) : Z :=
  let y := decimal (substring 0 4 s) 0 in
  let m := decimal (substring 5 2 s) 0 in
  let d := decimal (substring 8 2 s) 0 in
  86400000 * days_from_civil y m d.

Close Scope Z_scope.

(** ** Worked series

    Five small series and the date sort on integer keys used to evaluate
    them. *)

Definition observation (price quantity : R) (name cat date : string) : SalesDataPoint.t :=
  SalesDataPoint.mk (Num price) (Num quantity) name cat date.

(** Doubling the price divides the quantity by four. *)
Definition series_halving : list SalesDataPoint.t :=
  [observation 50 200 "Widget" "Tools" "2024-01-01";
   observation 100 50 "Widget" "Tools" "2024-02-01"].

(** Quantity proportional to price. *)
Definition series_proportional : list SalesDataPoint.t :=
  [observation 1 1 "Widget" "Tools" "2024-01-01";
   observation 2 2 "Widget" "Tools" "2024-02-01"].

(** One price throughout. *)
Definition series_flat : list SalesDataPoint.t :=
  [observation 10 5 "Widget" "Tools" "2024-01-01";
   observation 10 7 "Widget" "Tools" "2024-02-01";
   observation 10 9 "Widget" "Tools" "2024-03-01"].

(** Nothing sold on the latest date. *)
Definition series_sold_out : list SalesDataPoint.t :=
  [observation 1 1 "Widget" "Tools" "2024-01-01";
   observation 2 2 "Widget" "Tools" "2024-02-01";
   observation 3 0 "Widget" "Tools" "2024-03-01"].

(** Supplied latest first, the category having changed in between. *)
Definition series_unsorted : list SalesDataPoint.t :=
  [observation 2 1 "Widget" "Spring" "2024-02-01";
   observation 1 2 "Widget" "Winter" "2024-01-01"].

(** The date sort on integer keys, for evaluation. *)
Section SortByTime.
Variable key : SalesDataPoint.t -> Z.

Fixpoint insert_by_time (a : SalesDataPoint.t) (l : list SalesDataPoint.t)
  : list SalesDataPoint.t :=
  match l with
  | [] => [a]
  | b :: l' => if (key b <? key a)%Z then b :: insert_by_time a l' else a :: l
  end.

Fixpoint sort_by_time (l : list SalesDataPoint.t) : list SalesDataPoint.t :=
  match l with
  | [] => []
  | a :: l' => insert_by_time a (sort_by_time l')
  end.
End SortByTime.

(** ** ElasticityAnalysis: analyzeElasticity

    The grouping of the fetched rows by product name and the estimate of
    every group.  [productGroups] is a plain object used as a map: a lookup
    [groups[key]] that finds no own property goes on to [Object.prototype],
    and [Object.entries] lists the own properties with the array-index keys
    first, in ascending order, and the other keys in creation order. *)

(** Completion of a call: a value, or the TypeError of calling a missing
    method. *)
Inductive completion (A : Type) : Type :=
| Returns (a : A)
| Throws_TypeError.
Arguments Returns {A} a.
Arguments Throws_TypeError {A}.

(** The property names of [Object.prototype]; each holds a function or, for
    [__proto__], an object: truthy values without a [push] method. *)
Definition Object_prototype_names : list string :=
  ["constructor"; "__defineGetter__"; "__defineSetter__"; "hasOwnProperty";
   "__lookupGetter__"; "__lookupSetter__"; "isPrototypeOf";
   "propertyIsEnumerable"; "toString"; "valueOf"; "__proto__";
   "toLocaleString"]%string.

Definition inherited (key : string) : bool :=
  existsb (String.eqb key) Object_prototype_names.

(** The own properties of [productGroups], in creation order. *)
Definition Groups : Type := list (string * list SalesDataPoint.t).

Fixpoint own_property (groups : Groups) (key : string)
  : option (list SalesDataPoint.t) :=
  match groups with
  | [] => None
  | (k, arr) :: rest => if String.eqb k key then Some arr else own_property rest key
  end.

(** [groups[key].push(item)] on an own property. *)
Fixpoint push_item (groups : Groups) (key : string) (item : SalesDataPoint.t) : Groups :=
  match groups with
  | [] => []
  | (k, arr) :: rest =>
      if String.eqb k key then (k, arr ++ [item]) :: rest
      else (k, arr) :: push_item rest key item
  end.

(** The callback of the [reduce] of lines 419-426. *)
Definition group_step (groups : Groups) (item : SalesDataPoint.t) : completion Groups :=
  let key := SalesDataPoint.product_name item in
  match own_property groups key with
  | Some _ => Returns (push_item groups key item)
  | None =>
      if inherited key then Throws_TypeError
      else Returns (groups ++ [(key, [item])])
  end.

Fixpoint reduce_groups (data : list SalesDataPoint.t) (groups : Groups)
  : completion Groups :=
  match data with
  | [] => Returns groups
  | item :: rest =>
      match group_step groups item with
      | Returns groups' => reduce_groups rest groups'
      | Throws_TypeError => Throws_TypeError
      end
  end.

(** A key is an array index when it is the canonical decimal form of an
    integer below 2^32 - 1. *)
Definition is_digit (c : Ascii.ascii) : bool :=
  let n := Ascii.nat_of_ascii c in ((48 <=? n) && (n <=? 57))%nat.

Fixpoint all_digits (s : string) : bool :=
  match s with
  | EmptyString => true
  | String c s' => is_digit c && all_digits s'
  end.

Definition array_index (key : string) : option Z :=
  match key with
  | EmptyString => None
  | String c rest =>
      if all_digits key
         && (negb (Ascii.nat_of_ascii c =? 48)%nat || String.eqb rest EmptyString)
         && (decimal key 0 <=? 4294967294)%Z
      then Some (decimal key 0)
      else None
  end.

Definition is_array_index (key : string) : bool :=
  match array_index key with Some _ => true | None => false end.

Definition index_of (key : string) : Z :=
  match array_index key with Some i => i | None => 0%Z end.

Fixpoint insert_entry (e : string * list SalesDataPoint.t) (l : Groups) : Groups :=
  match l with
  | [] => [e]
  | e' :: l' =>
      if (index_of (fst e') <? index_of (fst e))%Z then e' :: insert_entry e l'
      else e :: l
  end.

Fixpoint sort_entries (l : Groups) : Groups :=
  match l with
  | [] => []
  | e :: l' => insert_entry e (sort_entries l')
  end.

Definition Object_entries (groups : Groups) : Groups :=
  sort_entries (filter (fun e => is_array_index (fst e)) groups)
  ++ filter (fun e => negb (is_array_index (fst e))) groups.

(** The callback of the [forEach] of lines 430-437 on the array [results]. *)
Definition analyze_entry (getTime : string -> Z) (results : list ElasticityResult.t)
           (entry : string * list SalesDataPoint.t) : list ElasticityResult.t :=
  let '(productName, productData) := entry in
  if (2 <=? List.length productData)%nat then
    match fst (calculateElasticity getTime productData) with
    | Some result => results ++ [result]
    | None => results
    end
  else results.

(** The array handed to [setElasticityResults], or the TypeError. *)
Definition analyzeElasticity (getTime : string -> Z) (data : list SalesDataPoint.t)
  : completion (list ElasticityResult.t) :=
  match reduce_groups data [] with
  | Returns productGroups =>
      Returns (fold_left (analyze_entry getTime) (Object_entries productGroups) [])
  | Throws_TypeError => Throws_TypeError
  end.

(** The observations of one product, in the order of the data. *)
Definition name_is (key : string) (p : SalesDataPoint.t) : bool :=
  String.eqb (SalesDataPoint.product_name p) key.

Definition observations_of (key : string) (data : list SalesDataPoint.t)
  : list SalesDataPoint.t :=
  filter (name_is key) data.

(** The product names of the data, each once, in order of first
    appearance. *)
Definition add_name (names : list string) (key : string) : list string :=
  if existsb (String.eqb key) names then names else names ++ [key].

Definition distinct_names (data : list SalesDataPoint.t) : list string :=
  fold_left add_name (map SalesDataPoint.product_name data) [].

(** The groups with the given keys over the given data. *)
Definition grouping (keys : list string) (data : list SalesDataPoint.t) : Groups :=
  map (fun k => (k, observations_of k data)) keys.

(** What one entry contributes to [results]. *)
Definition entry_result (getTime : string -> Z) (entry : string * list SalesDataPoint.t)
  : list ElasticityResult.t :=
  match fst (calculateElasticity getTime (snd entry)) with
  | Some result => [result]
  | None => []
  end.

Definition has_inherited_name (data : list SalesDataPoint.t) : bool :=
  existsb (fun item => inherited (SalesDataPoint.product_name item)) data.

(** The state of the grouping after a prefix of the data. *)
Definition grouped (keys : list string) (pre : list SalesDataPoint.t) : Prop :=
  NoDup keys /\
  (forall p, In p pre -> In (SalesDataPoint.product_name p) keys) /\
  (forall k, In k keys -> inherited k = false).

(** ** ElasticityAnalysis: saveRecommendations; PriceRecommendations

    The row built for one result (the database adds [id] and [created_at],
    which no computation below reads) and the figures derived from rows. *)

Module Recommendation.
Record t : Type := mk {
  user_id : string;
  product_name : string;
  category : string;
  current_price : number;
  recommended_price : number;
  elasticity_score : number;
  product_type : string;
  expected_revenue_change : number;
  optimization_target : string
}.
End Recommendation.

(** The callback of the [map] of lines 447-457. *)
Definition toRecommendation (user_id : string) (result : ElasticityResult.t)
  : Recommendation.t :=
  {| Recommendation.user_id := user_id;
     Recommendation.product_name := ElasticityResult.product_name result;
     Recommendation.category := ElasticityResult.category result;
     Recommendation.current_price := ElasticityResult.current_price result;
     Recommendation.recommended_price := ElasticityResult.recommended_price result;
     Recommendation.elasticity_score := ElasticityResult.elasticity result;
     Recommendation.product_type :=
       if ElasticityResult.is_elastic result then "elastic" else "inelastic";
     Recommendation.expected_revenue_change :=
       ElasticityResult.expected_revenue_change result;
     Recommendation.optimization_target := "revenue" |}.

(** The columns of the conflict target of the upsert. *)
Definition conflict_key (rec : Recommendation.t) : string * string :=
  (Recommendation.user_id rec, Recommendation.product_name rec).


(** The two values of [elasticityDistribution]. *)
Definition elasticProducts (recommendations : list Recommendation.t) : nat :=
  List.length (filter (fun r => String.eqb (Recommendation.product_type r) "elastic")
                      recommendations).

Definition inelasticProducts (recommendations : list Recommendation.t) : nat :=
  List.length (filter (fun r => String.eqb (Recommendation.product_type r) "inelastic")
                      recommendations).

(** The label of a product on the charts: [name.slice(0, 15)] followed by
    an ellipsis when the name is longer than 15 code units (a character of
    the model is one code unit). *)
Definition chartLabel (name : string) : string :=
  (substring 0 15 name ++ (if (15 <? String.length name)%nat then "..." else EmptyString))%string.

(** ** Further worked data *)


(** A product called like a method of every object. *)
Definition rows_constructor : list SalesDataPoint.t :=
  [observation 1 1 "constructor" "Tools" "2024-01-01";
   observation 2 2 "constructor" "Tools" "2024-02-01"].

(** Two products in date order, one of them named by a number. *)
Definition rows_mixed : list SalesDataPoint.t :=
  [observation 50 200 "Widget" "Tools" "2024-01-01";
   observation 1 1 "7" "Toys" "2024-01-15";
   observation 100 50 "Widget" "Tools" "2024-02-01";
   observation 2 2 "7" "Toys" "2024-02-15"].

(** * The estimator in binary64

    The same function over the doubles of the kernel: [+], [-], [*], [/] and
    the comparisons are those of IEEE-754 binary64, with their rounding,
    overflow and special values.  [Math.log] and [Math.pow], which
    ECMAScript leaves implementation-approximated, are parameters.  The
    exact model above is the idealisation of this one; the statements that
    hold only without rounding say so. *)

Module Binary64.

Module SalesDataPoint.
Record t : Type := mk {
  price : float;
  quantity_sold : float;
  product_name : string;
  category : string;
  sale_date : string
}.
End SalesDataPoint.

Module ElasticityResult.
Record t : Type := mk {
  elasticity : float;
  r_squared : float;
  is_elastic : bool;
  product_name : string;
  category : string;
  current_price : float;
  recommended_price : float;
  expected_revenue_change : float
}.
End ElasticityResult.

Module LogPoint.
Record t : Type := mk {
  logPrice : float;
  logQuantity : float;
  price : float;
  quantity : float
}.
End LogPoint.

(** [a > b] *)
Definition gt (a b : float) : bool := (b <? a)%float.

(** An integral time stamp as a double (exact below 2^53). *)
Definition float_of_Z (z : Z) : float :=
  if (z <? 0)%Z then (- of_uint63 (Uint63.of_Z (- z)))%float
  else of_uint63 (Uint63.of_Z z).

Definition array_get (arr : list float) (i : nat) : float := nth i arr nan.

Definition no_element : SalesDataPoint.t :=
  SalesDataPoint.mk nan nan EmptyString EmptyString EmptyString.

Section ArraySort.
Context {A : Type} (comparefn : A -> A -> float).

Fixpoint sort_insert (a : A) (l : list A) : list A :=
  match l with
  | [] => [a]
  | b :: l' => if gt (comparefn a b) 0 then b :: sort_insert a l' else a :: l
  end.

Fixpoint Array_sort (l : list A) : list A :=
  match l with
  | [] => []
  | a :: l' => sort_insert a (Array_sort l')
  end.
End ArraySort.

Section Elasticity.

Variable Math_log : float -> float.
Variable Math_pow : float -> float -> float.
Variable getTime : string -> Z.

Definition byDate (a b : SalesDataPoint.t) : float :=
  (float_of_Z (getTime (SalesDataPoint.sale_date a))
   - float_of_Z (getTime (SalesDataPoint.sale_date b)))%float.

Definition toLogPoint (point : SalesDataPoint.t) : LogPoint.t :=
  {| LogPoint.logPrice := Math_log (SalesDataPoint.price point);
     LogPoint.logQuantity := Math_log (SalesDataPoint.quantity_sold point);
     LogPoint.price := SalesDataPoint.price point;
     LogPoint.quantity := SalesDataPoint.quantity_sold point |}.

Definition finiteLogs (point : LogPoint.t) : bool :=
  is_finite (LogPoint.logPrice point) && is_finite (LogPoint.logQuantity point).

Definition slope_step (meanLogPrice meanLogQuantity : float)
           (acc : float * float) (point : LogPoint.t) : float * float :=
  let priceDeviation := (LogPoint.logPrice point - meanLogPrice)%float in
  let quantityDeviation := (LogPoint.logQuantity point - meanLogQuantity)%float in
  ((fst acc + priceDeviation * quantityDeviation)%float,
   (snd acc + priceDeviation * priceDeviation)%float).

Definition calculateElasticity (dataPoints : list SalesDataPoint.t)
  : option ElasticityResult.t * list SalesDataPoint.t :=
  if (List.length dataPoints <? 2)%nat then (None, dataPoints) else
  let sortedData := Array_sort byDate dataPoints in
  let dataPoints := sortedData in
  let logPoints := filter finiteLogs (map toLogPoint sortedData) in
  if (List.length logPoints <? 2)%nat then (None, dataPoints) else
  let n := float_of_Z (Z.of_nat (List.length logPoints)) in
  let meanLogPrice :=
    (fold_left (fun sum p => (sum + LogPoint.logPrice p)%float) logPoints 0%float / n)%float in
  let meanLogQuantity :=
    (fold_left (fun sum p => (sum + LogPoint.logQuantity p)%float) logPoints 0%float / n)%float in
  let '(numerator, denominator) :=
    fold_left (slope_step meanLogPrice meanLogQuantity) logPoints (0%float, 0%float) in
  if (denominator =? 0)%float then (None, dataPoints) else
  let elasticity := (numerator / denominator)%float in
  let predicted :=
    map (fun point =>
           (meanLogQuantity + elasticity * (LogPoint.logPrice point - meanLogPrice))%float)
        logPoints in
  let totalSumSquares :=
    fold_left (fun sum point =>
                 (sum + Math_pow (LogPoint.logQuantity point - meanLogQuantity) 2)%float)
              logPoints 0%float in
  let residualSumSquares :=
    reduce_i (fun sum point i =>
                (sum + Math_pow (LogPoint.logQuantity point - array_get predicted i) 2)%float)
             logPoints 0%float in
  let r_squared :=
    if gt totalSumSquares 0
    then (1 - residualSumSquares / totalSumSquares)%float
    else 0%float in
  let is_elastic := gt (abs elasticity) 1 in
  let latest := nth (List.length sortedData - 1) sortedData no_element in
  let current_price := SalesDataPoint.price latest in
  let current_quantity := SalesDataPoint.quantity_sold latest in
  let '(recommended_price, expected_revenue_change) :=
    if is_elastic then
      let recommended_price := (current_price * 0x1.ccccccccccccdp-1)%float in
      let predicted_quantity :=
        (current_quantity * Math_pow (recommended_price / current_price) elasticity)%float in
      let current_revenue := (current_price * current_quantity)%float in
      let predicted_revenue := (recommended_price * predicted_quantity)%float in
      (recommended_price,
       ((predicted_revenue - current_revenue) / current_revenue * 100)%float)
    else
      let recommended_price := (current_price * 0x1.199999999999ap+0)%float in
      let predicted_quantity :=
        (current_quantity * Math_pow (recommended_price / current_price) elasticity)%float in
      let current_revenue := (current_price * current_quantity)%float in
      let predicted_revenue := (recommended_price * predicted_quantity)%float in
      (recommended_price,
       ((predicted_revenue - current_revenue) / current_revenue * 100)%float) in
  let first := nth 0 dataPoints no_element in
  (Some {| ElasticityResult.elasticity := elasticity;
           ElasticityResult.r_squared := r_squared;
           ElasticityResult.is_elastic := is_elastic;
           ElasticityResult.product_name := SalesDataPoint.product_name first;
           ElasticityResult.category := SalesDataPoint.category first;
           ElasticityResult.current_price := current_price;
           ElasticityResult.recommended_price := recommended_price;
           ElasticityResult.expected_revenue_change := expected_revenue_change |},
   dataPoints).

End Elasticity.

(** [Math.log] at the arguments of the worked inputs below: the double
    closest to the natural logarithm.  The special cases are those of
    ECMAScript; no other argument is evaluated. *)
Definition log_at (x : float) : float :=
  if (x =? 1)%float then 0%float
  else if (x =? 2)%float then 0x1.62e42fefa39efp-1%float
  else if (x =? 3)%float then 0x1.193ea7aad030bp+0%float
  else if (x =? 6)%float then 0x1.cab0bfa2a2002p+0%float
  else if (x =? 50)%float then 0x1.f4bd2b7ac1bafp+1%float
  else if (x =? 100)%float then 0x1.26bb1bbb55516p+2%float
  else if (x =? 200)%float then 0x1.5317a1b949c53p+2%float
  else if (x =? 0)%float then neg_infinity
  else if (x =? infinity)%float then infinity
  else nan.

Definition observation (price quantity : float) (name cat date : string)
  : SalesDataPoint.t :=
  SalesDataPoint.mk price quantity name cat date.

(** [series_halving] in doubles. *)
Definition series_halving : list SalesDataPoint.t :=
  [observation 50 200 "Widget" "Tools" "2024-01-01";
   observation 100 50 "Widget" "Tools" "2024-02-01"].

(** Three rows at the price 6. *)
Definition rows_price_6 : list SalesDataPoint.t :=
  [observation 6 1 "Widget" "Tools" "2024-01-01";
   observation 6 2 "Widget" "Tools" "2024-02-01";
   observation 6 3 "Widget" "Tools" "2024-03-01"].

End Binary64.

(** A finite double as the ratio of two integers. *)
Definition float_ratio (f : float) : option (Z * Z) :=
  match Prim2SF f with
  | S754_zero _ => Some (0, 1)%Z
  | S754_finite s m e =>
      let n := if s then Zneg m else Zpos m in
      Some (if (0 <=? e)%Z then (n * 2 ^ e, 1)%Z else (n, 2 ^ (- e))%Z)
  | _ => None
  end.

(** The real number a finite double stands for (0 for the others). *)
Definition float_value (f : float) : R :=
  match float_ratio f with
  | Some (n, d) => IZR n / IZR d
  | None => 0
  end.

(** A binary64 observation read as an observation of the exact model. *)
Definition exact_observation (p : Binary64.SalesDataPoint.t) : SalesDataPoint.t :=
  SalesDataPoint.mk (Num (float_value (Binary64.SalesDataPoint.price p)))
                    (Num (float_value (Binary64.SalesDataPoint.quantity_sold p)))
                    (Binary64.SalesDataPoint.product_name p)
                    (Binary64.SalesDataPoint.category p)
                    (Binary64.SalesDataPoint.sale_date p).

(** The rows of the exact model with one price, 6. *)
Definition rows_price_6 : list SalesDataPoint.t :=
  [observation 6 1 "Widget" "Tools" "2024-01-01";
   observation 6 2 "Widget" "Tools" "2024-02-01";
   observation 6 3 "Widget" "Tools" "2024-03-01"].

(** * Proofs *)

(** ** Basic facts about numbers *)

Lemma Rltb_true x y : Rltb x y = true <-> x < y.
Proof. unfold Rltb; destruct (Rlt_dec x y); split; intros; try easy. Qed.

Lemma Rltb_false x y : Rltb x y = false <-> y <= x.
Proof. unfold Rltb; destruct (Rlt_dec x y); split; intros; try easy; lra. Qed.

Lemma Reqb_true x y : Reqb x y = true <-> x = y.
Proof. unfold Reqb; destruct (Req_dec_T x y); split; intros; try easy. Qed.

Lemma Reqb_false x y : Reqb x y = false <-> x <> y.
Proof. unfold Reqb; destruct (Req_dec_T x y); split; intros; try easy. Qed.

Ltac rdec :=
  repeat match goal with
    | |- context [Rltb ?x ?y] =>
        let H := fresh "H" in
        destruct (Rltb x y) eqn:H;
        [apply Rltb_true in H | apply Rltb_false in H]
    | |- context [Reqb ?x ?y] =>
        let H := fresh "H" in
        destruct (Reqb x y) eqn:H;
        [apply Reqb_true in H | apply Reqb_false in H]
    end.

Lemma sub_Num x y : sub (Num x) (Num y) = Num (x - y).
Proof. reflexivity. Qed.

Lemma div_Num x y : y <> 0 -> div (Num x) (Num y) = Num (x / y).
Proof. intros H; unfold div. apply Reqb_false in H. now rewrite H. Qed.

Lemma div_zero_zero x y : x = 0 -> y = 0 -> div (Num x) (Num y) = NaN.
Proof.
  intros -> ->; unfold div, inf_signed.
  rdec; try reflexivity; lra.
Qed.

Lemma Math_pow_2 x : Math_pow (Num x) (Num 2) = Num (x * x).
Proof.
  assert (Hint : Int_part 2 = 2%Z).
  { symmetry. apply Int_part_spec. simpl. lra. }
  unfold Math_pow, is_integer. rewrite Hint. simpl Z.odd.
  rdec; try lra; f_equal; try (subst; lra);
    replace 2 with (INR 2) by (simpl; lra);
    rewrite Rpower_pow by lra; simpl; lra.
Qed.

Lemma Math_pow_pos x y : 0 < x -> Math_pow (Num x) (Num y) = Num (Rpower x y).
Proof.
  intros Hx. unfold Math_pow.
  rdec; try lra; try reflexivity.
  subst. now rewrite Rpower_O.
Qed.

Lemma isFinite_log a : isFinite (Math_log a) = positive a.
Proof.
  destruct a; simpl; try reflexivity.
  rdec; simpl; try reflexivity; lra.
Qed.

Lemma Math_log_positive a : positive a = true -> Math_log a = Num (ln (real_of a)).
Proof.
  destruct a; simpl; try discriminate.
  intros H; apply Rltb_true in H.
  rdec; try reflexivity; lra.
Qed.

Lemma isFinite_Num a : isFinite a = true -> a = Num (real_of a).
Proof. destruct a; simpl; congruence. Qed.

(** ** Sorting *)

Section SortFacts.
Context {A : Type} (comparefn : A -> A -> number).

Lemma sort_insert_perm a l : Permutation (sort_insert comparefn a l) (a :: l).
Proof.
  induction l as [|b l IH]; simpl.
  - apply Permutation_refl.
  - destruct (gt (comparefn a b) (Num 0)).
    + eapply perm_trans; [apply perm_skip, IH | apply perm_swap].
    + apply Permutation_refl.
Qed.

Lemma Array_sort_perm l : Permutation (Array_sort comparefn l) l.
Proof.
  induction l as [|a l IH]; simpl.
  - constructor.
  - eapply perm_trans; [apply sort_insert_perm | now apply perm_skip].
Qed.

Lemma Array_sort_length l : List.length (Array_sort comparefn l) = List.length l.
Proof. apply Permutation_length, Array_sort_perm. Qed.
End SortFacts.

Section DateOrder.
Variable getTime : string -> Z.

Lemma byDate_gt a b :
  gt (byDate getTime a b) (Num 0) = (time_of getTime b <? time_of getTime a)%Z.
Proof.
  unfold byDate, time_of. rewrite sub_Num. simpl.
  destruct (Z.ltb_spec (getTime (SalesDataPoint.sale_date b))
                       (getTime (SalesDataPoint.sale_date a))) as [H|H].
  - apply Rltb_true. apply IZR_lt in H. lra.
  - apply Rltb_false. apply IZR_le in H. lra.
Qed.

Lemma sort_insert_sorted a l :
  StronglySorted (not_later getTime) l ->
  StronglySorted (not_later getTime) (sort_insert (byDate getTime) a l).
Proof.
  induction 1 as [|b l Hs IH Hb]; cbn [sort_insert].
  - repeat constructor.
  - rewrite byDate_gt.
    destruct (Z.ltb_spec (time_of getTime b) (time_of getTime a)) as [Hlt|Hle].
    + constructor; [exact IH|].
      eapply Permutation_Forall.
      * apply Permutation_sym, sort_insert_perm.
      * constructor; [unfold not_later; lia | exact Hb].
    + constructor; [now constructor|].
      constructor; [exact Hle|].
      eapply Forall_impl; [|exact Hb].
      unfold not_later; intros; lia.
Qed.

Lemma Array_sort_sorted l : StronglySorted (not_later getTime) (Array_sort (byDate getTime) l).
Proof.
  induction l; simpl; [constructor | now apply sort_insert_sorted].
Qed.

(** An array already in date order is left as it is. *)
Lemma Array_sort_fixed l :
  StronglySorted (not_later getTime) l -> Array_sort (byDate getTime) l = l.
Proof.
  induction 1 as [|a l Hs IH Ha]; cbn [Array_sort]; [reflexivity|].
  rewrite IH. destruct l as [|b l]; [reflexivity|].
  cbn [sort_insert]. rewrite byDate_gt.
  inversion Ha as [|? ? Hab _]; subst. unfold not_later in Hab.
  destruct (Z.ltb_spec (time_of getTime b) (time_of getTime a)); [lia | reflexivity].
Qed.

Lemma last_In (l : list SalesDataPoint.t) d : l <> [] -> In (last l d) l.
Proof.
  induction l as [|a [|b l] IH]; intros H; [congruence | now left |].
  right. apply IH. discriminate.
Qed.

Lemma sorted_last_latest l d :
  StronglySorted (not_later getTime) l ->
  forall p, In p l -> not_later getTime p (last l d).
Proof.
  induction 1 as [|a l Hs IH Ha]; intros p Hp; [contradiction|].
  destruct l as [|b l].
  - destruct Hp as [->|[]]. unfold not_later; simpl; lia.
  - change (last (a :: b :: l) d) with (last (b :: l) d).
    destruct Hp as [->|Hp].
    + rewrite Forall_forall in Ha. apply Ha, last_In. discriminate.
    + now apply IH.
Qed.

Lemma sorted_hd_earliest l d :
  StronglySorted (not_later getTime) l ->
  forall p, In p l -> not_later getTime (hd d l) p.
Proof.
  intros Hs p Hp. destruct Hs as [|a l Hs Ha]; [contradiction|].
  simpl. destruct Hp as [->|Hp].
  - unfold not_later; lia.
  - rewrite Forall_forall in Ha. now apply Ha.
Qed.
End DateOrder.

(** ** Sums over the finite-log points *)

Lemma all_finite_tail lp lps : all_finite (lp :: lps) -> all_finite lps.
Proof. intros H x Hx. apply H. now right. Qed.

Lemma filter_all_finite l : all_finite (filter finiteLogs l).
Proof.
  intros lp Hlp. apply filter_In in Hlp as [_ Hf].
  unfold finiteLogs in Hf. apply andb_true_iff in Hf as [Hp Hq].
  split; now apply isFinite_Num.
Qed.

Lemma fold_sum_finite (f : LogPoint.t -> number) (g : R * R -> R) lps :
  (forall lp, In lp lps -> f lp = Num (g (pt_of lp))) ->
  forall a,
    fold_left (fun sum p => add sum (f p)) lps (Num a)
    = Num (a + Rsum (map g (map pt_of lps))).
Proof.
  induction lps as [|lp lps IH]; intros Hf a; simpl.
  - f_equal; lra.
  - rewrite (Hf lp) by now left. simpl add.
    rewrite IH by (intros; apply Hf; now right).
    f_equal; lra.
Qed.

Lemma fold_slope_step m1 m2 lps :
  all_finite lps ->
  forall a b,
    fold_left (slope_step (Num m1) (Num m2)) lps (Num a, Num b)
    = (Num (a + Rsum (map (fun p => (fst p - m1) * (snd p - m2)) (map pt_of lps))),
       Num (b + Rsum (map (fun p => (fst p - m1) * (fst p - m1)) (map pt_of lps)))).
Proof.
  induction lps as [|lp lps IH]; intros Hf a b; simpl.
  - f_equal; f_equal; lra.
  - destruct (Hf lp (or_introl eq_refl)) as [Hp Hq].
    unfold slope_step at 2. simpl fst; simpl snd.
    rewrite Hp, Hq, !sub_Num. simpl mul. simpl add.
    rewrite IH by (eapply all_finite_tail; eauto).
    simpl fst; simpl snd. cbn [real_of].
    f_equal; f_equal; lra.
Qed.

Lemma reduce_from_indexed (F : LogPoint.t -> number -> number)
      (g : LogPoint.t -> number) lps :
  forall pre acc,
    reduce_from (fun sum point i => add sum (F point (array_get (pre ++ map g lps) i)))
                (List.length pre) lps acc
    = fold_left (fun sum point => add sum (F point (g point))) lps acc.
Proof.
  induction lps as [|lp lps IH]; intros pre acc; simpl; [reflexivity|].
  unfold array_get at 2. rewrite app_nth2 by lia.
  rewrite Nat.sub_diag. simpl nth.
  specialize (IH (pre ++ [g lp]) (add acc (F lp (g lp)))).
  rewrite <- app_assoc, length_app in IH. simpl in IH.
  rewrite Nat.add_1_r in IH. exact IH.
Qed.

Lemma reduce_i_indexed (F : LogPoint.t -> number -> number)
      (g : LogPoint.t -> number) lps acc :
  reduce_i (fun sum point i => add sum (F point (array_get (map g lps) i))) lps acc
  = fold_left (fun sum point => add sum (F point (g point))) lps acc.
Proof. exact (reduce_from_indexed F g lps [] acc). Qed.

(** ** The estimator in closed form *)

Lemma fold_sum_finite0 (f : LogPoint.t -> number) (g : R * R -> R) lps :
  (forall lp, In lp lps -> f lp = Num (g (pt_of lp))) ->
  fold_left (fun sum p => add sum (f p)) lps (Num 0) = Num (Rsum (map g (map pt_of lps))).
Proof. intros H. rewrite (fold_sum_finite f g lps H). f_equal; lra. Qed.

Lemma fold_slope_step0 m1 m2 lps :
  all_finite lps ->
  fold_left (slope_step (Num m1) (Num m2)) lps (Num 0, Num 0)
  = (Num (Rsum (map (fun p => (fst p - m1) * (snd p - m2)) (map pt_of lps))),
     Num (Rsum (map (fun p => (fst p - m1) * (fst p - m1)) (map pt_of lps)))).
Proof. intros H. rewrite (fold_slope_step m1 m2 lps H). f_equal; f_equal; lra. Qed.

Lemma nth_pred_length_last (l : list SalesDataPoint.t) d :
  nth (List.length l - 1) l d = last l d.
Proof.
  induction l as [|a [|b l] IH]; try reflexivity.
  change (last (a :: b :: l) d) with (last (b :: l) d).
  rewrite <- IH. simpl. now rewrite Nat.sub_0_r.
Qed.

Lemma nth_0_hd (l : list SalesDataPoint.t) d : nth 0 l d = hd d l.
Proof. now destruct l. Qed.

Lemma logPoints_usable l :
  filter finiteLogs (map toLogPoint l) = map toLogPoint (filter usable l).
Proof.
  induction l as [|p l IH]; simpl; [reflexivity|].
  unfold finiteLogs at 1, usable at 1. simpl.
  rewrite !isFinite_log, IH.
  now destruct (positive _ && positive _).
Qed.

Lemma pts_regression_set l :
  map pt_of (filter finiteLogs (map toLogPoint l)) = regression_set l.
Proof.
  rewrite logPoints_usable. unfold regression_set.
  rewrite map_map. apply map_ext_in.
  intros p Hp. apply filter_In in Hp as [_ Hu].
  unfold usable in Hu. apply andb_true_iff in Hu as [H1 H2].
  unfold pt_of, log_pair. simpl.
  now rewrite (Math_log_positive _ H1), (Math_log_positive _ H2).
Qed.

Section Evaluation.
Variable getTime : string -> Z.

Lemma calculateElasticity_eq dataPoints :
  calculateElasticity getTime dataPoints =
  if (List.length dataPoints <? 2)%nat then (None, dataPoints) else
  let sorted := Array_sort (byDate getTime) dataPoints in
  let pts := regression_set sorted in
  if (List.length pts <? 2)%nat then (None, sorted) else
  if Reqb (Sxx pts) 0 then (None, sorted) else
  (Some (estimate pts (hd no_element sorted) (last sorted no_element)), sorted).
Proof.
  unfold calculateElasticity.
  destruct (List.length dataPoints <? 2)%nat eqn:Hlen; [reflexivity|].
  cbv zeta.
  rewrite <- (pts_regression_set (Array_sort (byDate getTime) dataPoints)).
  set (sorted := Array_sort (byDate getTime) dataPoints).
  set (lps := filter finiteLogs (map toLogPoint sorted)).
  rewrite length_map.
  destruct (List.length lps <? 2)%nat eqn:Hn; [reflexivity|].
  assert (Hfin : all_finite lps) by apply filter_all_finite.
  assert (Hn0 : INR (List.length lps) <> 0).
  { apply Nat.ltb_ge in Hn. apply not_0_INR. lia. }
  rewrite (fold_sum_finite0 LogPoint.logPrice fst lps)
    by (intros; now apply Hfin).
  rewrite (fold_sum_finite0 LogPoint.logQuantity snd lps)
    by (intros; now apply Hfin).
  rewrite !div_Num by exact Hn0.
  set (pts := map pt_of lps).
  replace (Rsum (map fst pts) / INR (List.length lps)) with (mp pts)
    by (unfold mp, mean, pts; now rewrite !length_map).
  replace (Rsum (map snd pts) / INR (List.length lps)) with (mq pts)
    by (unfold mq, mean, pts; now rewrite !length_map).
  rewrite fold_slope_step0 by exact Hfin.
  fold pts. cbv beta iota.
  change (Rsum (map (fun p => (fst p - mp pts) * (snd p - mq pts)) pts)) with (Sxy pts).
  change (Rsum (map (fun p => (fst p - mp pts) * (fst p - mp pts)) pts)) with (Sxx pts).
  cbn [strict_eq].
  destruct (Reqb (Sxx pts) 0) eqn:Hden; [reflexivity|].
  apply Reqb_false in Hden.
  rewrite (div_Num _ _ Hden).
  change (Sxy pts / Sxx pts) with (ols_slope pts).
  rewrite (fold_sum_finite0
             (fun point => Math_pow (sub (LogPoint.logQuantity point) (Num (mq pts))) (Num 2))
             (fun p => (snd p - mq pts) * (snd p - mq pts)) lps).
  2:{ intros lp Hlp. destruct (Hfin lp Hlp) as [_ Hq].
      now rewrite Hq, sub_Num, Math_pow_2. }
  rewrite (reduce_i_indexed
             (fun point pred => Math_pow (sub (LogPoint.logQuantity point) pred) (Num 2))
             (fun point => add (Num (mq pts))
                               (mul (Num (ols_slope pts))
                                    (sub (LogPoint.logPrice point) (Num (mp pts)))))).
  rewrite (fold_sum_finite0
             (fun point =>
                Math_pow (sub (LogPoint.logQuantity point)
                              (add (Num (mq pts))
                                   (mul (Num (ols_slope pts))
                                        (sub (LogPoint.logPrice point) (Num (mp pts))))))
                         (Num 2))
             (fun p => residual pts p * residual pts p) lps).
  2:{ intros lp Hlp. destruct (Hfin lp Hlp) as [Hp Hq].
      rewrite Hp, Hq, !sub_Num. cbn [mul add]. now rewrite sub_Num, Math_pow_2. }
  fold pts.
  change (Rsum (map (fun p => (snd p - mq pts) * (snd p - mq pts)) pts)) with (Syy pts).
  change (Rsum (map (fun p => residual pts p * residual pts p) pts)) with (RSS pts).
  rewrite nth_pred_length_last, nth_0_hd.
  cbn [gt Math_abs].
  assert (Hr2 : (if Rltb 0 (Syy pts)
                 then sub (Num 1) (div (Num (RSS pts)) (Num (Syy pts)))
                 else Num 0) = Num (goodness_of_fit pts)).
  { unfold goodness_of_fit. destruct (Rltb 0 (Syy pts)) eqn:Hs; [|reflexivity].
    apply Rltb_true in Hs. rewrite div_Num by lra. now rewrite sub_Num. }
  rewrite Hr2. unfold estimate, revenue_change_pct.
  now destruct (Rltb 1 (Rabs (ols_slope pts))).
Qed.

End Evaluation.

(** ** Least squares: order independence and the fit *)

Lemma Rsum_perm l l' : Permutation l l' -> Rsum l = Rsum l'.
Proof.
  induction 1; simpl; try lra.
Qed.

Lemma filter_perm {A : Type} (f : A -> bool) l l' :
  Permutation l l' -> Permutation (filter f l) (filter f l').
Proof.
  induction 1 as [| x l l' _ IH | x y l | l l1 l2 _ IH1 _ IH2]; simpl.
  - constructor.
  - destruct (f x); [now constructor | exact IH].
  - destruct (f x), (f y); try apply Permutation_refl. apply perm_swap.
  - eapply perm_trans; eauto.
Qed.

Lemma regression_set_perm l l' :
  Permutation l l' -> Permutation (regression_set l) (regression_set l').
Proof. intros H. unfold regression_set. now apply Permutation_map, filter_perm. Qed.

Section PermInvariance.
Variables pts pts' : list (R * R).
Hypothesis Hperm : Permutation pts pts'.

Lemma mp_perm : mp pts = mp pts'.
Proof.
  unfold mp, mean. rewrite !length_map, (Permutation_length Hperm).
  f_equal. now apply Rsum_perm, Permutation_map.
Qed.

Lemma mq_perm : mq pts = mq pts'.
Proof.
  unfold mq, mean. rewrite !length_map, (Permutation_length Hperm).
  f_equal. now apply Rsum_perm, Permutation_map.
Qed.

Lemma Sxy_perm : Sxy pts = Sxy pts'.
Proof.
  unfold Sxy. rewrite mp_perm, mq_perm. now apply Rsum_perm, Permutation_map.
Qed.

Lemma Sxx_perm : Sxx pts = Sxx pts'.
Proof.
  unfold Sxx. rewrite mp_perm. now apply Rsum_perm, Permutation_map.
Qed.

Lemma ols_slope_perm : ols_slope pts = ols_slope pts'.
Proof. unfold ols_slope. now rewrite Sxy_perm, Sxx_perm. Qed.
End PermInvariance.

Lemma Rsum_squares_nonneg (f : R * R -> R) pts :
  0 <= Rsum (map (fun p => f p * f p) pts).
Proof.
  induction pts as [|p pts IH]; simpl; [lra|].
  pose proof (Rle_0_sqr (f p)) as H. unfold Rsqr in H. lra.
Qed.

Lemma Rsum_squares_zero (f : R * R -> R) pts :
  Rsum (map (fun p => f p * f p) pts) = 0 <-> forall p, In p pts -> f p = 0.
Proof.
  induction pts as [|p pts IH]; simpl.
  - split; [intros _ ? [] | reflexivity].
  - pose proof (Rle_0_sqr (f p)) as H. unfold Rsqr in H.
    pose proof (Rsum_squares_nonneg f pts) as H'.
    split.
    + intros Hs q [<-|Hq].
      * assert (f p * f p = 0) by lra. nra.
      * apply IH; [lra | exact Hq].
    + intros Hall.
      rewrite (Hall p (or_introl eq_refl)).
      assert (Rsum (map (fun p => f p * f p) pts) = 0) by (apply IH; auto).
      lra.
Qed.

(** Expanding the squared residuals of any line through the means. *)
Lemma residual_expansion (m1 m2 b : R) pts :
  Rsum (map (fun p => (snd p - (m2 + b * (fst p - m1))) * (snd p - (m2 + b * (fst p - m1)))) pts)
  = Rsum (map (fun p => (snd p - m2) * (snd p - m2)) pts)
    - 2 * b * Rsum (map (fun p => (fst p - m1) * (snd p - m2)) pts)
    + b * b * Rsum (map (fun p => (fst p - m1) * (fst p - m1)) pts).
Proof.
  induction pts as [|p pts IH]; simpl; [lra|].
  rewrite IH. ring.
Qed.

Lemma RSS_closed_form pts :
  Sxx pts <> 0 -> RSS pts = Syy pts - Sxy pts * Sxy pts / Sxx pts.
Proof.
  intros H. unfold RSS, residual.
  rewrite residual_expansion.
  fold (Syy pts) (Sxy pts) (Sxx pts). unfold ols_slope. now field.
Qed.

Lemma goodness_of_fit_bounds pts :
  Sxx pts <> 0 -> 0 <= goodness_of_fit pts <= 1.
Proof.
  intros Hx. unfold goodness_of_fit.
  destruct (Rltb 0 (Syy pts)) eqn:Hs; [apply Rltb_true in Hs | lra].
  assert (H0 : 0 <= RSS pts) by apply (Rsum_squares_nonneg (residual pts)).
  assert (Hxx : 0 < Sxx pts).
  { pose proof (Rsum_squares_nonneg (fun p => fst p - mp pts) pts) as H.
    change (0 <= Sxx pts) in H. lra. }
  assert (H1 : RSS pts <= Syy pts).
  { rewrite (RSS_closed_form pts Hx).
    assert (0 <= Sxy pts * Sxy pts / Sxx pts).
    { apply Rmult_le_pos; [apply Rle_0_sqr | left; now apply Rinv_0_lt_compat]. }
    lra. }
  assert (H2 : 0 <= RSS pts / Syy pts).
  { apply Rmult_le_pos; [exact H0 | left; now apply Rinv_0_lt_compat]. }
  assert (H3 : RSS pts / Syy pts <= 1).
  { apply Rmult_le_reg_r with (Syy pts); [exact Hs|].
    unfold Rdiv. rewrite Rmult_assoc, Rinv_l by lra. lra. }
  lra.
Qed.

(** ** Consequences of the closed form *)

Section Results.
Variable getTime : string -> Z.

Let sorted (dataPoints : list SalesDataPoint.t) := Array_sort (byDate getTime) dataPoints.

Lemma regression_set_sorted dataPoints :
  Permutation (regression_set (sorted dataPoints)) (regression_set dataPoints).
Proof. apply regression_set_perm, Array_sort_perm. Qed.

Lemma regression_set_length dataPoints :
  (List.length (regression_set dataPoints) <= List.length dataPoints)%nat.
Proof. unfold regression_set. rewrite length_map. apply filter_length_le. Qed.

Lemma calculateElasticity_some dataPoints r :
  fst (calculateElasticity getTime dataPoints) = Some r ->
  (2 <= List.length dataPoints)%nat /\
  (2 <= List.length (regression_set dataPoints))%nat /\
  Sxx (regression_set dataPoints) <> 0 /\
  r = estimate (regression_set (sorted dataPoints))
               (hd no_element (sorted dataPoints))
               (last (sorted dataPoints) no_element).
Proof.
  rewrite calculateElasticity_eq. fold (sorted dataPoints).
  rewrite <- (Sxx_perm _ _ (regression_set_sorted dataPoints)).
  rewrite <- (Permutation_length (regression_set_sorted dataPoints)).
  destruct (List.length dataPoints <? 2)%nat eqn:H1; [discriminate|].
  cbv zeta.
  destruct (List.length (regression_set (sorted dataPoints)) <? 2)%nat eqn:H2;
    [discriminate|].
  destruct (Reqb (Sxx (regression_set (sorted dataPoints))) 0) eqn:H3;
    [discriminate|].
  simpl. intros [= <-].
  apply Nat.ltb_ge in H1, H2. apply Reqb_false in H3. auto.
Qed.

Lemma calculateElasticity_defined dataPoints :
  (2 <= List.length (regression_set dataPoints))%nat ->
  Sxx (regression_set dataPoints) <> 0 ->
  fst (calculateElasticity getTime dataPoints)
  = Some (estimate (regression_set (sorted dataPoints))
                   (hd no_element (sorted dataPoints))
                   (last (sorted dataPoints) no_element)).
Proof.
  intros H2 H3.
  pose proof (regression_set_length dataPoints) as Hle.
  rewrite calculateElasticity_eq. fold (sorted dataPoints).
  replace (List.length dataPoints <? 2)%nat with false
    by (symmetry; apply Nat.ltb_ge; lia).
  cbv zeta.
  replace (List.length (regression_set (sorted dataPoints)) <? 2)%nat with false
    by (symmetry; apply Nat.ltb_ge;
        rewrite (Permutation_length (regression_set_sorted dataPoints)); lia).
  apply Reqb_false in H3.
  rewrite (Sxx_perm _ _ (regression_set_sorted dataPoints)), H3.
  reflexivity.
Qed.

Lemma calculateElasticity_array dataPoints :
  snd (calculateElasticity getTime dataPoints)
  = if (List.length dataPoints <? 2)%nat then dataPoints else sorted dataPoints.
Proof.
  rewrite calculateElasticity_eq. fold (sorted dataPoints).
  destruct (List.length dataPoints <? 2)%nat; [reflexivity|].
  cbv zeta.
  destruct (List.length (regression_set (sorted dataPoints)) <? 2)%nat; [reflexivity|].
  now destruct (Reqb (Sxx (regression_set (sorted dataPoints))) 0).
Qed.

End Results.

(** ** Dates *)

Example isoTime_epoch : isoTime "1970-01-01" = 0%Z.
Proof. reflexivity. Qed.

Example isoTime_2024_01_15 : isoTime "2024-01-15" = 1705276800000%Z.
Proof. reflexivity. Qed.

Example isoTime_2024_03_01 : isoTime "2024-03-01" = 1709251200000%Z.
Proof. reflexivity. Qed.

(** ** The estimator: claims *)

(** C1 (amended): in exact real arithmetic (no rounding), when at least
    two observations survive the finite-log filter (finite positive price
    and quantity) and the sum of squared deviations of their log-prices is
    not zero, [calculateElasticity] returns a result whose elasticity is the
    least-squares slope [Sum (lnP - mp)(lnQ - mq) / Sum (lnP - mp)^2] over
    the filtered observations, [mp] and [mq] being the means of the
    log-prices and of the log-quantities.  In binary64 the elasticity is the
    rounded evaluation of the same formula (see
    [binary64_halving_elasticity]). *)
Theorem elasticity_is_ols_slope (getTime : string -> Z) dataPoints :
  let pts := regression_set dataPoints in
  (2 <= List.length pts)%nat ->
  Sxx pts <> 0 ->
  exists r,
    fst (calculateElasticity getTime dataPoints) = Some r /\
    ElasticityResult.elasticity r = Num (Sxy pts / Sxx pts).
Proof.
  intros pts Hn Hx.
  eexists; split; [now apply calculateElasticity_defined|].
  simpl. f_equal.
  apply (ols_slope_perm _ _ (regression_set_sorted getTime dataPoints)).
Qed.

Lemma degenerate_no_result (getTime : string -> Z) dataPoints :
  degenerate dataPoints -> fst (calculateElasticity getTime dataPoints) = None.
Proof.
  intros Hdeg.
  destruct (fst (calculateElasticity getTime dataPoints)) as [r|] eqn:Hr;
    [|reflexivity].
  apply calculateElasticity_some in Hr as (H1 & H2 & H3 & _).
  destruct Hdeg as [H|[H|H]]; [lia | lia | contradiction].
Qed.

(** In exact real arithmetic [calculateElasticity] returns null exactly on
    degenerate input (fewer than two observations, fewer than two
    observations with finite logarithms, or a zero least-squares
    denominator) and a result on every other input; being a total function,
    it raises nothing.  In binary64 the guard on the denominator can miss
    (see [equal_prices_result]). *)
Theorem null_iff_degenerate (getTime : string -> Z) dataPoints :
  (fst (calculateElasticity getTime dataPoints) = None <-> degenerate dataPoints) /\
  (~ degenerate dataPoints ->
   exists r, fst (calculateElasticity getTime dataPoints) = Some r).
Proof.
  assert (Hiff : fst (calculateElasticity getTime dataPoints) = None
                 <-> degenerate dataPoints).
  { split.
    - intros Hnone.
      destruct (le_lt_dec 2 (List.length (regression_set dataPoints))) as [Hn|Hn];
        [|right; now left].
      destruct (Req_dec_T (Sxx (regression_set dataPoints)) 0) as [Hx|Hx];
        [right; now right|].
      rewrite (calculateElasticity_defined getTime _ Hn Hx) in Hnone. discriminate.
    - apply degenerate_no_result. }
  split; [exact Hiff|].
  intros Hnd.
  destruct (fst (calculateElasticity getTime dataPoints)) as [r|] eqn:Hr.
  - now exists r.
  - exfalso. apply Hnd, Hiff. reflexivity.
Qed.

(** C5: the classification is strict: [is_elastic] holds exactly when the
    absolute value of the elasticity exceeds 1, so a result whose elasticity
    is exactly 1 or -1 is inelastic. *)
Theorem classification_strict (getTime : string -> Z) dataPoints r :
  fst (calculateElasticity getTime dataPoints) = Some r ->
  exists e,
    ElasticityResult.elasticity r = Num e /\
    (ElasticityResult.is_elastic r = true <-> 1 < Rabs e) /\
    (e = 1 \/ e = -1 -> ElasticityResult.is_elastic r = false).
Proof.
  intros Hr. apply calculateElasticity_some in Hr as (_ & _ & _ & ->).
  eexists; split; [reflexivity|]. simpl. split.
  - apply Rltb_true.
  - intros [-> | ->]; apply Rltb_false;
      unfold Rabs; destruct (Rcase_abs _); lra.
Qed.

(** C10: with exact arithmetic the goodness of fit of every result lies in
    the closed interval from 0 to 1. *)
Theorem r_squared_unit_interval (getTime : string -> Z) dataPoints r :
  fst (calculateElasticity getTime dataPoints) = Some r ->
  exists v, ElasticityResult.r_squared r = Num v /\ 0 <= v <= 1.
Proof.
  intros Hr. apply calculateElasticity_some in Hr as (_ & _ & Hx & ->).
  eexists; split; [reflexivity|].
  apply goodness_of_fit_bounds.
  now rewrite (Sxx_perm _ _ (regression_set_sorted getTime dataPoints)).
Qed.

Lemma Rpower_neg_2 x : 0 < x -> Rpower x (-2) = / (x * x).
Proof.
  intros Hx. replace (-2) with (- INR 2) by (simpl; lra).
  rewrite Rpower_Ropp, Rpower_pow by exact Hx. simpl. f_equal. lra.
Qed.

Lemma revenue_change_example :
  revenue_change_pct (Num (-2)) (Num 100) (Num 50) (Num 90) = Num (100 / 9).
Proof.
  unfold revenue_change_pct.
  rewrite div_Num by lra.
  rewrite Math_pow_pos by lra.
  rewrite Rpower_neg_2 by lra.
  cbn [mul]. rewrite sub_Num, div_Num by lra. cbn [mul].
  f_equal. field.
Qed.

(** A zero baseline revenue makes the revenue change NaN, whatever the
    elasticity and the (positive) offset. *)
Lemma revenue_change_zero_baseline e p q c :
  p * q = 0 -> 0 < c ->
  revenue_change_pct (Num e) (Num p) (Num q) (mul (Num p) (Num c)) = NaN.
Proof.
  intros Hpq Hc. unfold revenue_change_pct. cbn [mul].
  destruct (Req_dec_T p 0) as [Hp|Hp].
  - subst p.
    rewrite (div_zero_zero (0 * c) 0) by lra.
    unfold Math_pow. destruct (Reqb e 0).
    + cbn [mul]. rewrite sub_Num, div_zero_zero by lra. reflexivity.
    + reflexivity.
  - assert (Hq : q = 0).
    { destruct (Rmult_integral _ _ Hpq); [contradiction | assumption]. }
    subst q.
    rewrite div_Num by exact Hp.
    rewrite Math_pow_pos.
    2:{ replace (p * c / p) with c by (field; exact Hp). exact Hc. }
    cbn [mul]. rewrite sub_Num, div_zero_zero by lra. reflexivity.
Qed.

(** C3: the current price and quantity of a result are those of the
    chronologically latest observation (the last one of the date-sorted,
    unfiltered series); the recommended price is the current price times
    0.90 for an elastic product and times 1.10 otherwise; the expected
    revenue change is the constant-elasticity revenue change in percent.
    With elasticity -2, current price 100 and current quantity 50 this is
    a recommended price of 90 and a revenue change of 100/9 percent. *)
Theorem recommendation_from_latest (getTime : string -> Z) dataPoints r :
  fst (calculateElasticity getTime dataPoints) = Some r ->
  let latest := last (Array_sort (byDate getTime) dataPoints) no_element in
  let current_quantity := SalesDataPoint.quantity_sold latest in
  In latest dataPoints /\
  (forall p, In p dataPoints -> (time_of getTime p <= time_of getTime latest)%Z) /\
  ElasticityResult.current_price r = SalesDataPoint.price latest /\
  ElasticityResult.recommended_price r
  = mul (ElasticityResult.current_price r)
        (Num (if ElasticityResult.is_elastic r then 0.9 else 1.1)) /\
  ElasticityResult.expected_revenue_change r
  = revenue_change_pct (ElasticityResult.elasticity r)
                       (ElasticityResult.current_price r)
                       current_quantity
                       (ElasticityResult.recommended_price r) /\
  (ElasticityResult.elasticity r = Num (-2) ->
   ElasticityResult.current_price r = Num 100 ->
   current_quantity = Num 50 ->
   ElasticityResult.is_elastic r = true /\
   ElasticityResult.recommended_price r = Num 90 /\
   ElasticityResult.expected_revenue_change r = Num (100 / 9)).
Proof.
  intros Hr latest current_quantity.
  apply calculateElasticity_some in Hr as (Hlen & _ & _ & ->).
  pose proof (Array_sort_perm (byDate getTime) dataPoints) as Hperm.
  assert (Hin : In latest dataPoints).
  { apply (Permutation_in _ Hperm). apply last_In.
    intros E. apply (f_equal (@List.length _)) in E.
    rewrite Array_sort_length in E. simpl in E. lia. }
  split; [exact Hin|].
  split.
  { intros p Hp. apply (sorted_last_latest getTime).
    - apply Array_sort_sorted.
    - apply (Permutation_in _ (Permutation_sym Hperm)), Hp. }
  cbn [estimate ElasticityResult.current_price ElasticityResult.recommended_price
       ElasticityResult.is_elastic ElasticityResult.expected_revenue_change
       ElasticityResult.elasticity].
  fold latest. fold current_quantity.
  split; [reflexivity|]. split; [reflexivity|]. split; [reflexivity|].
  intros He Hp Hq. injection He as He.
  rewrite Hp, Hq, He.
  assert (Hel : Rltb 1 (Rabs (-2)) = true).
  { apply Rltb_true. unfold Rabs; destruct (Rcase_abs _); lra. }
  rewrite Hel. cbn [mul].
  replace (100 * 0.9) with 90 by lra.
  repeat split. apply revenue_change_example.
Qed.

(** C7: the revenue change is not guarded against a zero baseline revenue:
    for a series with at least two finite-log observations and a non-zero
    least-squares denominator whose latest observation has a finite price
    and quantity with product zero, a result is still returned, and its
    expected revenue change is the NaN of dividing zero by the zero
    baseline. *)
Theorem zero_baseline_unguarded (getTime : string -> Z) dataPoints p q :
  let pts := regression_set dataPoints in
  let latest := last (Array_sort (byDate getTime) dataPoints) no_element in
  (2 <= List.length pts)%nat ->
  Sxx pts <> 0 ->
  SalesDataPoint.price latest = Num p ->
  SalesDataPoint.quantity_sold latest = Num q ->
  p * q = 0 ->
  exists r,
    fst (calculateElasticity getTime dataPoints) = Some r /\
    mul (SalesDataPoint.price latest) (SalesDataPoint.quantity_sold latest) = Num 0 /\
    ElasticityResult.expected_revenue_change r = NaN.
Proof.
  intros pts latest Hn Hx Hp Hq Hpq.
  eexists. split; [now apply calculateElasticity_defined|].
  rewrite Hp, Hq. split; [cbn [mul]; now rewrite Hpq|].
  cbn [estimate ElasticityResult.expected_revenue_change].
  fold latest. rewrite Hp, Hq.
  apply revenue_change_zero_baseline; [exact Hpq|].
  destruct (Rltb 1 _); lra.
Qed.

(** ** The optimiser: claims *)

Lemma gt_zero_false a : zero_or_negative a -> gt a (Num 0) = false.
Proof.
  destruct a; simpl; try easy. intros H. now apply Rltb_false.
Qed.

Lemma gt_zero_true a : strictly_positive a -> gt a (Num 0) = true.
Proof.
  destruct a; simpl; try easy. intros H. now apply Rltb_true.
Qed.

Lemma sqrt_115_bounds : 1.0723 < Rpower 1.15 0.5 < 1.0724.
Proof.
  set (s := Rpower 1.15 0.5).
  assert (Hs : 0 < s) by (unfold s, Rpower; apply exp_pos).
  assert (Hss : s * s = 1.15).
  { unfold s. rewrite <- Rpower_plus.
    replace (0.5 + 0.5) with 1 by lra. apply Rpower_1. lra. }
  split; nra.
Qed.

Lemma optimizePrice_example :
  optimizePrice (Num (-0.5)) (Num 20) (Num 100) None (Some revenue)
  = {| optimal_price := Num 23;
       expected_change := Num ((Rpower 1.15 0.5 - 1) * 100) |}.
Proof.
  unfold optimizePrice.
  assert (Hin : gt (Math_abs (Num (-0.5))) (Num 1) = false).
  { simpl. apply Rltb_false. unfold Rabs; destruct (Rcase_abs _); lra. }
  rewrite Hin. cbv zeta. cbn [mul].
  rewrite div_Num by lra.
  rewrite Math_pow_pos by lra.
  replace (20 * 1.15 / 20) with 1.15 by lra.
  replace (-0.5) with (Ropp 0.5) by lra.
  rewrite Rpower_Ropp.
  pose proof sqrt_115_bounds as Hb.
  set (s := Rpower 1.15 0.5) in *.
  assert (Hss : s * s = 1.15).
  { unfold s. rewrite <- Rpower_plus.
    replace (0.5 + 0.5) with 1 by lra. apply Rpower_1. lra. }
  assert (Hinv : / s = s / 1.15).
  { rewrite <- Hss. field. lra. }
  cbn [mul]. rewrite sub_Num, div_Num by lra. cbn [mul].
  rewrite Hinv. f_equal; f_equal; lra.
Qed.

(** C4 (amended): the optimal price is the current price times the fixed
    offset chosen by the target and by whether the absolute elasticity
    exceeds 1 (0.85 and 1.15 for revenue, 0.90 and 1.20 for profit); under
    the revenue target the expected change is the constant-elasticity
    revenue change; and for elasticity -0.5, price 20, quantity 100 under
    the revenue target the optimal price is 23 and the expected change is
    (1.15^0.5 - 1) * 100 percent, which is about 7.24. *)
Theorem optimizePrice_fixed_offsets :
  (forall elasticity currentPrice currentQuantity costPerUnit target,
      optimal_price (optimizePrice elasticity currentPrice currentQuantity costPerUnit target)
      = mul currentPrice
            (Num (offset (match target with Some t => t | None => revenue end)
                         (gt (Math_abs elasticity) (Num 1))))) /\
  (forall elasticity currentPrice currentQuantity costPerUnit,
      let result :=
        optimizePrice elasticity currentPrice currentQuantity costPerUnit (Some revenue) in
      expected_change result
      = revenue_change_pct elasticity currentPrice currentQuantity (optimal_price result)) /\
  (let result := optimizePrice (Num (-0.5)) (Num 20) (Num 100) None (Some revenue) in
   optimal_price result = Num 23 /\
   expected_change result = Num ((Rpower 1.15 0.5 - 1) * 100) /\
   7.23 < (Rpower 1.15 0.5 - 1) * 100 < 7.24).
Proof.
  split; [|split].
  - intros e cp cq cost [[|]|]; unfold optimizePrice; simpl;
      destruct (gt (Math_abs e) (Num 1)); reflexivity.
  - intros e cp cq cost. unfold optimizePrice; simpl.
    destruct (gt (Math_abs e) (Num 1)); reflexivity.
  - rewrite optimizePrice_example. simpl.
    pose proof sqrt_115_bounds. repeat split; lra.
Qed.

(** C4 as stated: the expected change of that call is not about 9.86. *)
Lemma optimizePrice_example_not_9_86 :
  ~ exists v,
      expected_change (optimizePrice (Num (-0.5)) (Num 20) (Num 100) None (Some revenue))
      = Num v /\ 9.855 <= v <= 9.865.
Proof.
  intros (v & Hv & Hb). rewrite optimizePrice_example in Hv. simpl in Hv.
  injection Hv as <-. pose proof sqrt_115_bounds. lra.
Qed.

(** C6: under the profit target a zero or negative baseline profit
    [(currentPrice - costPerUnit) * currentQuantity] gives an expected change
    of exactly 0 whatever the predicted profit, and a positive baseline gives
    [(predicted_profit - current_profit) / current_profit * 100]. *)
Theorem profit_baseline_policy elasticity currentPrice currentQuantity costPerUnit :
  let cost := match costPerUnit with Some c => c | None => Num 0 end in
  let result :=
    optimizePrice elasticity currentPrice currentQuantity costPerUnit (Some profit) in
  let current_profit := mul (sub currentPrice cost) currentQuantity in
  let predicted_quantity :=
    mul currentQuantity (Math_pow (div (optimal_price result) currentPrice) elasticity) in
  let predicted_profit := mul (sub (optimal_price result) cost) predicted_quantity in
  (zero_or_negative current_profit -> expected_change result = Num 0) /\
  (strictly_positive current_profit ->
   expected_change result
   = mul (div (sub predicted_profit current_profit) current_profit) (Num 100)).
Proof.
  intros cost result current_profit predicted_quantity predicted_profit.
  split; intros H.
  - unfold result, optimizePrice. cbv zeta. cbn [expected_change].
    fold cost. fold current_profit. now rewrite gt_zero_false.
  - unfold result, optimizePrice. cbv zeta. cbn [expected_change].
    fold cost. fold current_profit. now rewrite gt_zero_true.
Qed.

(** ** Evaluating the worked series *)

Lemma Array_sort_by_time getTime l :
  Array_sort (byDate getTime) l = sort_by_time (time_of getTime) l.
Proof.
  induction l as [|a l IH]; cbn [Array_sort sort_by_time]; [reflexivity|].
  rewrite IH. generalize (sort_by_time (time_of getTime) l) as s.
  induction s as [|b s IHs]; cbn [sort_insert insert_by_time]; [reflexivity|].
  now rewrite byDate_gt, IHs.
Qed.

Lemma regression_set_cons_usable p l :
  usable p = true -> regression_set (p :: l) = log_pair p :: regression_set l.
Proof. intros H. unfold regression_set. cbn [filter]. now rewrite H. Qed.

Lemma regression_set_cons_unusable p l :
  usable p = false -> regression_set (p :: l) = regression_set l.
Proof. intros H. unfold regression_set. cbn [filter]. now rewrite H. Qed.

Lemma usable_observation x y n c d : 0 < x -> 0 < y -> usable (observation x y n c d) = true.
Proof.
  intros Hx Hy. unfold usable, observation. simpl.
  apply andb_true_iff; split; now apply Rltb_true.
Qed.

Lemma unusable_observation x n c d : usable (observation x 0 n c d) = false.
Proof.
  unfold usable, observation. simpl.
  apply andb_false_iff; right. apply Rltb_false. lra.
Qed.

Lemma Sxx_two x1 y1 x2 y2 :
  Sxx [(x1, y1); (x2, y2)] = (x2 - x1) * (x2 - x1) / 2.
Proof. unfold Sxx, mp, mean. simpl. field. Qed.

Lemma Sxy_two x1 y1 x2 y2 :
  Sxy [(x1, y1); (x2, y2)] = (x2 - x1) * (y2 - y1) / 2.
Proof. unfold Sxy, mp, mq, mean. simpl. field. Qed.

Lemma ols_slope_two x1 y1 x2 y2 :
  x1 <> x2 -> ols_slope [(x1, y1); (x2, y2)] = (y2 - y1) / (x2 - x1).
Proof.
  intros H. unfold ols_slope. rewrite Sxx_two, Sxy_two. field. lra.
Qed.

Lemma ln_2_pos : 0 < ln 2.
Proof. pose proof ln_lt_2. lra. Qed.

Lemma ln_double x : 0 < x -> ln (2 * x) = ln 2 + ln x.
Proof. intros H. apply ln_mult; lra. Qed.

(** *** [series_halving] *)

Lemma halving_sorted : Array_sort (byDate isoTime) series_halving = series_halving.
Proof. rewrite Array_sort_by_time. reflexivity. Qed.

Lemma halving_pts :
  regression_set series_halving = [(ln 50, ln 200); (ln 100, ln 50)].
Proof.
  unfold series_halving.
  rewrite !regression_set_cons_usable by (apply usable_observation; lra).
  reflexivity.
Qed.

Lemma ln_100 : ln 100 = ln 2 + ln 50.
Proof. replace 100 with (2 * 50) by lra. apply ln_double. lra. Qed.

Lemma ln_200 : ln 200 = 2 * ln 2 + ln 50.
Proof.
  replace 200 with (2 * (2 * 50)) by lra.
  rewrite !ln_double by lra. lra.
Qed.

Lemma halving_length : (2 <= List.length (regression_set series_halving))%nat.
Proof. rewrite halving_pts. simpl. lia. Qed.

Lemma halving_Sxx : Sxx (regression_set series_halving) <> 0.
Proof.
  rewrite halving_pts, Sxx_two, ln_100.
  pose proof ln_2_pos. nra.
Qed.

Lemma halving_slope :
  Sxy (regression_set series_halving) / Sxx (regression_set series_halving) = -2.
Proof.
  change (ols_slope (regression_set series_halving) = -2).
  rewrite halving_pts, ols_slope_two.
  - rewrite ln_100, ln_200. field. pose proof ln_2_pos. lra.
  - rewrite ln_100. pose proof ln_2_pos. lra.
Qed.

Lemma halving_latest :
  last (Array_sort (byDate isoTime) series_halving) no_element
  = observation 100 50 "Widget" "Tools" "2024-02-01".
Proof. rewrite halving_sorted. reflexivity. Qed.

Lemma halving_result :
  exists r,
    fst (calculateElasticity isoTime series_halving) = Some r /\
    ElasticityResult.elasticity r = Num (-2) /\
    ElasticityResult.current_price r = Num 100.
Proof.
  eexists. split; [apply (calculateElasticity_defined isoTime _ halving_length halving_Sxx)|].
  cbn [estimate ElasticityResult.elasticity ElasticityResult.current_price].
  rewrite halving_latest. split; [|reflexivity].
  f_equal.
  rewrite (ols_slope_perm _ _ (regression_set_sorted isoTime series_halving)).
  exact halving_slope.
Qed.

(** On [series_halving] the estimated elasticity is -2. *)
Lemma elasticity_is_ols_slope_witness :
  exists r,
    fst (calculateElasticity isoTime series_halving) = Some r /\
    ElasticityResult.elasticity r = Num (-2).
Proof.
  destruct (elasticity_is_ols_slope isoTime series_halving halving_length halving_Sxx)
    as (r & Hr & He).
  exists r. split; [exact Hr|].
  rewrite He. f_equal. exact halving_slope.
Defined.

(** On [series_halving] the recommendation is 90, for a revenue change of
    100/9 percent. *)
Lemma recommendation_from_latest_witness :
  exists r,
    fst (calculateElasticity isoTime series_halving) = Some r /\
    ElasticityResult.recommended_price r = Num 90 /\
    ElasticityResult.expected_revenue_change r = Num (100 / 9).
Proof.
  destruct halving_result as (r & Hr & He & Hp).
  destruct (recommendation_from_latest isoTime series_halving r Hr)
    as (_ & _ & _ & _ & _ & H).
  destruct (H He Hp (f_equal SalesDataPoint.quantity_sold halving_latest))
    as (_ & H1 & H2).
  exists r. auto.
Defined.

(** The goodness of fit of [series_halving]. *)
Lemma r_squared_unit_interval_witness :
  exists r v,
    fst (calculateElasticity isoTime series_halving) = Some r /\
    ElasticityResult.r_squared r = Num v /\ 0 <= v <= 1.
Proof.
  destruct halving_result as (r & Hr & _).
  destruct (r_squared_unit_interval isoTime series_halving r Hr) as (v & Hv & Hb).
  exists r, v. auto.
Defined.

(** *** [series_proportional] *)

Lemma proportional_sorted :
  Array_sort (byDate isoTime) series_proportional = series_proportional.
Proof. rewrite Array_sort_by_time. reflexivity. Qed.

Lemma proportional_pts :
  regression_set series_proportional = [(ln 1, ln 1); (ln 2, ln 2)].
Proof.
  unfold series_proportional.
  rewrite !regression_set_cons_usable by (apply usable_observation; lra).
  reflexivity.
Qed.

Lemma proportional_length : (2 <= List.length (regression_set series_proportional))%nat.
Proof. rewrite proportional_pts. simpl. lia. Qed.

Lemma proportional_Sxx : Sxx (regression_set series_proportional) <> 0.
Proof.
  rewrite proportional_pts, Sxx_two, ln_1.
  pose proof ln_2_pos. nra.
Qed.

Lemma proportional_result :
  exists r,
    fst (calculateElasticity isoTime series_proportional) = Some r /\
    ElasticityResult.elasticity r = Num 1.
Proof.
  eexists. split;
    [apply (calculateElasticity_defined isoTime _ proportional_length proportional_Sxx)|].
  cbn [estimate ElasticityResult.elasticity]. f_equal.
  rewrite (ols_slope_perm _ _ (regression_set_sorted isoTime series_proportional)).
  rewrite proportional_pts, ols_slope_two, ln_1.
  - field. pose proof ln_2_pos. lra.
  - rewrite ln_1. pose proof ln_2_pos. lra.
Qed.

(** [series_proportional] has elasticity exactly 1 and is inelastic. *)
Lemma classification_strict_witness :
  exists r,
    fst (calculateElasticity isoTime series_proportional) = Some r /\
    ElasticityResult.elasticity r = Num 1 /\
    ElasticityResult.is_elastic r = false.
Proof.
  destruct proportional_result as (r & Hr & He).
  destruct (classification_strict isoTime series_proportional r Hr) as (e & He' & _ & H).
  exists r. split; [exact Hr|]. split; [exact He|].
  apply H. left. rewrite He in He'. now injection He'.
Defined.

(** *** [series_flat] *)

Lemma flat_pts :
  regression_set series_flat = [(ln 10, ln 5); (ln 10, ln 7); (ln 10, ln 9)].
Proof.
  unfold series_flat.
  rewrite !regression_set_cons_usable by (apply usable_observation; lra).
  reflexivity.
Qed.

Lemma flat_degenerate : degenerate series_flat.
Proof.
  right; right. rewrite flat_pts.
  unfold Sxx, mp, mean. simpl. field.
Qed.

Lemma halving_not_degenerate : ~ degenerate series_halving.
Proof.
  intros [H|[H|H]].
  - simpl in H. lia.
  - pose proof halving_length. lia.
  - now apply halving_Sxx.
Qed.

(** In exact arithmetic: no result for [series_flat], a result for
    [series_halving]. *)
Lemma null_iff_degenerate_witness :
  fst (calculateElasticity isoTime series_flat) = None /\
  exists r, fst (calculateElasticity isoTime series_halving) = Some r.
Proof.
  split.
  - apply (proj1 (null_iff_degenerate isoTime series_flat)). exact flat_degenerate.
  - apply (proj2 (null_iff_degenerate isoTime series_halving)).
    exact halving_not_degenerate.
Defined.

(** ** The estimator in binary64 *)

Lemma float_value_ratio f n d :
  float_ratio f = Some (n, d) -> float_value f = IZR n / IZR d.
Proof. unfold float_value. now intros ->. Qed.

Ltac eval_float_value :=
  repeat (erewrite float_value_ratio by (vm_compute; reflexivity)).

(** The binary64 inputs are the worked series of the exact model. *)
Lemma halving_exact : map exact_observation Binary64.series_halving = series_halving.
Proof.
  unfold Binary64.series_halving, series_halving, exact_observation, observation,
    Binary64.observation.
  cbn [map Binary64.SalesDataPoint.price Binary64.SalesDataPoint.quantity_sold
       Binary64.SalesDataPoint.product_name Binary64.SalesDataPoint.category
       Binary64.SalesDataPoint.sale_date].
  eval_float_value.
  repeat (f_equal; try lra).
Qed.

Lemma price_6_exact : map exact_observation Binary64.rows_price_6 = rows_price_6.
Proof.
  unfold Binary64.rows_price_6, rows_price_6, exact_observation, observation,
    Binary64.observation.
  cbn [map Binary64.SalesDataPoint.price Binary64.SalesDataPoint.quantity_sold
       Binary64.SalesDataPoint.product_name Binary64.SalesDataPoint.category
       Binary64.SalesDataPoint.sale_date].
  eval_float_value.
  repeat (f_equal; try lra).
Qed.

(** On [series_halving] the sums of lines 41 to 54 round, and the quotient
    of line 58 is the double -1.9999999999999982, eight units in the last
    place away from -2. *)
Lemma binary64_halving_elasticity (Math_pow : float -> float -> float) :
  option_map Binary64.ElasticityResult.elasticity
    (fst (Binary64.calculateElasticity Binary64.log_at Math_pow isoTime
            Binary64.series_halving))
  = Some (-0x1.ffffffffffff8p+0)%float.
Proof. vm_compute. reflexivity. Qed.

Lemma rounded_slope_value : float_value (-0x1.ffffffffffff8p+0) <> -2.
Proof. eval_float_value. lra. Qed.

(** C1 as first stated, without the proviso of exact arithmetic, fails on
    [series_halving]: the least-squares slope of the series is -2, and for
    no [Math.pow] does the binary64 estimator return a result whose
    elasticity is -2. *)
Lemma halving_elasticity_rounded :
  map exact_observation Binary64.series_halving = series_halving /\
  Sxy (regression_set series_halving) / Sxx (regression_set series_halving) = -2 /\
  ~ (exists Math_pow r,
       fst (Binary64.calculateElasticity Binary64.log_at Math_pow isoTime
              Binary64.series_halving) = Some r /\
       float_value (Binary64.ElasticityResult.elasticity r) = -2).
Proof.
  split; [exact halving_exact|]. split; [exact halving_slope|].
  intros (Math_pow & r & Hr & He).
  pose proof (binary64_halving_elasticity Math_pow) as H.
  rewrite Hr in H. cbn [option_map] in H. injection H as H.
  rewrite H in He. exact (rounded_slope_value He).
Qed.

(** The mean of three copies of the double [Math.log(6)] is not that
    double: the sum of line 41 rounds, and the quotient by 3 lands one unit
    in the last place above. *)
Lemma mean_of_three_logs :
  let l := Binary64.log_at 6 in
  l = 0x1.cab0bfa2a2002p+0%float /\
  ((0 + l + l + l) / 3)%float = 0x1.cab0bfa2a2003p+0%float.
Proof. split; vm_compute; reflexivity. Qed.

Lemma price_6_pts :
  regression_set rows_price_6 = [(ln 6, ln 1); (ln 6, ln 2); (ln 6, ln 3)].
Proof.
  unfold rows_price_6.
  rewrite !regression_set_cons_usable by (apply usable_observation; lra).
  reflexivity.
Qed.

Lemma price_6_degenerate : degenerate rows_price_6.
Proof.
  right; right. rewrite price_6_pts.
  unfold Sxx, mp, mean. simpl. field.
Qed.

Lemma binary64_price_6_elasticity (Math_pow : float -> float -> float) :
  option_map Binary64.ElasticityResult.elasticity
    (fst (Binary64.calculateElasticity Binary64.log_at Math_pow isoTime
            Binary64.rows_price_6))
  = Some (-0x1.5555555555555p-2)%float.
Proof. vm_compute. reflexivity. Qed.

(** C2: three sales at the one price 6 are degenerate input (the variance
    of the log-prices is zero), for which the claim has
    [calculateElasticity] return null.  The binary64 estimator returns a
    result, of elasticity -0.3333333333333333: the rounded mean of the three
    equal log-prices differs from them, the denominator of line 53 comes to
    2^-103 * 1.5 instead of 0, and the guard [denominator === 0] of line 56
    does not fire. *)
Theorem equal_prices_result (Math_pow : float -> float -> float) :
  map exact_observation Binary64.rows_price_6 = rows_price_6 /\
  degenerate rows_price_6 /\
  exists r,
    fst (Binary64.calculateElasticity Binary64.log_at Math_pow isoTime
           Binary64.rows_price_6) = Some r /\
    Binary64.ElasticityResult.elasticity r = (-0x1.5555555555555p-2)%float.
Proof.
  split; [exact price_6_exact|]. split; [exact price_6_degenerate|].
  pose proof (binary64_price_6_elasticity Math_pow) as H.
  destruct (fst (Binary64.calculateElasticity Binary64.log_at Math_pow isoTime
                   Binary64.rows_price_6)) as [r|]; [|discriminate H].
  exists r. split; [reflexivity|].
  cbn [option_map] in H. now injection H.
Qed.

(** *** [series_sold_out] *)

Lemma sold_out_sorted : Array_sort (byDate isoTime) series_sold_out = series_sold_out.
Proof. rewrite Array_sort_by_time. reflexivity. Qed.

Lemma sold_out_pts :
  regression_set series_sold_out = [(ln 1, ln 1); (ln 2, ln 2)].
Proof.
  unfold series_sold_out.
  rewrite !regression_set_cons_usable by (apply usable_observation; lra).
  rewrite regression_set_cons_unusable by apply unusable_observation.
  reflexivity.
Qed.

Lemma sold_out_length : (2 <= List.length (regression_set series_sold_out))%nat.
Proof. rewrite sold_out_pts. simpl. lia. Qed.

Lemma sold_out_Sxx : Sxx (regression_set series_sold_out) <> 0.
Proof. rewrite sold_out_pts, Sxx_two, ln_1. pose proof ln_2_pos. nra. Qed.

Lemma sold_out_latest :
  last (Array_sort (byDate isoTime) series_sold_out) no_element
  = observation 3 0 "Widget" "Tools" "2024-03-01".
Proof. rewrite sold_out_sorted. reflexivity. Qed.

(** [series_sold_out] has a result, whose revenue change is NaN. *)
Lemma zero_baseline_unguarded_witness :
  exists r,
    fst (calculateElasticity isoTime series_sold_out) = Some r /\
    ElasticityResult.expected_revenue_change r = NaN.
Proof.
  destruct (zero_baseline_unguarded isoTime series_sold_out 3 0
              sold_out_length sold_out_Sxx
              (f_equal SalesDataPoint.price sold_out_latest)
              (f_equal SalesDataPoint.quantity_sold sold_out_latest))
    as (r & Hr & _ & Hnan).
  - lra.
  - exists r. split; [exact Hr | exact Hnan].
Defined.

(** *** [optimizePrice] below cost *)

(** A unit cost of 12 above the price of 10 gives 0; a unit cost of 4 gives
    the relative change of the profit. *)
Lemma profit_baseline_policy_witness :
  expected_change
    (optimizePrice (Num (-2)) (Num 10) (Num 5) (Some (Num 12)) (Some profit)) = Num 0 /\
  expected_change
    (optimizePrice (Num (-2)) (Num 10) (Num 5) (Some (Num 4)) (Some profit))
  = mul (div (sub (mul (sub (Num (10 * 0.9)) (Num 4))
                       (mul (Num 5)
                            (Math_pow (div (Num (10 * 0.9)) (Num 10)) (Num (-2)))))
                  (mul (sub (Num 10) (Num 4)) (Num 5)))
             (mul (sub (Num 10) (Num 4)) (Num 5)))
        (Num 100).
Proof.
  assert (Hel : gt (Math_abs (Num (-2))) (Num 1) = true).
  { simpl. apply Rltb_true. unfold Rabs; destruct (Rcase_abs _); lra. }
  split.
  - apply (proj1 (profit_baseline_policy (Num (-2)) (Num 10) (Num 5) (Some (Num 12)))).
    simpl. lra.
  - rewrite (proj2 (profit_baseline_policy (Num (-2)) (Num 10) (Num 5) (Some (Num 4)))).
    + unfold optimizePrice. rewrite Hel. reflexivity.
    + simpl. lra.
Defined.

(** ** The in-place sort *)

(** What the code does: after the call the caller's array holds the same
    observations in date order, and the labels are those of its first
    element, an earliest-dated observation. *)
Lemma caller_array_after_call (getTime : string -> Z) dataPoints :
  let after := snd (calculateElasticity getTime dataPoints) in
  Permutation after dataPoints /\
  ((2 <= List.length dataPoints)%nat -> StronglySorted (not_later getTime) after) /\
  (StronglySorted (not_later getTime) dataPoints -> after = dataPoints).
Proof.
  cbv zeta. rewrite calculateElasticity_array.
  destruct (List.length dataPoints <? 2)%nat eqn:Hlen.
  - apply Nat.ltb_lt in Hlen. repeat split; [apply Permutation_refl | lia].
  - repeat split.
    + apply Array_sort_perm.
    + intros _. apply Array_sort_sorted.
    + apply Array_sort_fixed.
Qed.

Lemma labels_of_result (getTime : string -> Z) dataPoints r :
  fst (calculateElasticity getTime dataPoints) = Some r ->
  let first := hd no_element (Array_sort (byDate getTime) dataPoints) in
  ElasticityResult.product_name r = SalesDataPoint.product_name first /\
  ElasticityResult.category r = SalesDataPoint.category first /\
  (forall p, In p dataPoints -> (time_of getTime first <= time_of getTime p)%Z).
Proof.
  intros Hr first.
  apply calculateElasticity_some in Hr as (_ & _ & _ & ->).
  repeat split.
  intros p Hp. apply (sorted_hd_earliest getTime).
  - apply Array_sort_sorted.
  - apply (Permutation_in _ (Permutation_sym (Array_sort_perm _ dataPoints))), Hp.
Qed.

Lemma unsorted_sorted :
  Array_sort (byDate isoTime) series_unsorted = rev series_unsorted.
Proof. rewrite Array_sort_by_time. reflexivity. Qed.

Lemma unsorted_pts :
  regression_set series_unsorted = [(ln 2, ln 1); (ln 1, ln 2)].
Proof.
  unfold series_unsorted.
  rewrite !regression_set_cons_usable by (apply usable_observation; lra).
  reflexivity.
Qed.

Lemma unsorted_result :
  exists r, fst (calculateElasticity isoTime series_unsorted) = Some r.
Proof.
  eexists. apply calculateElasticity_defined.
  - rewrite unsorted_pts. simpl. lia.
  - rewrite unsorted_pts, Sxx_two, ln_1. pose proof ln_2_pos. nra.
Qed.

(** C8: on [series_unsorted] the category of the result is that of the
    earliest-dated observation, which the caller supplied second, and not
    that of the first observation of the input. *)
Theorem labels_from_earliest_observation :
  exists r,
    fst (calculateElasticity isoTime series_unsorted) = Some r /\
    ElasticityResult.category r = "Winter"%string /\
    SalesDataPoint.category (hd no_element series_unsorted) = "Spring"%string /\
    ElasticityResult.category r
    <> SalesDataPoint.category (hd no_element series_unsorted).
Proof.
  destruct unsorted_result as (r & Hr).
  exists r. split; [exact Hr|].
  destruct (labels_of_result isoTime series_unsorted r Hr) as (_ & Hc & _).
  rewrite unsorted_sorted in Hc. rewrite Hc.
  repeat split. discriminate.
Qed.

(** C9: on [series_unsorted] the caller's array is reversed by the call. *)
Theorem caller_array_reordered :
  snd (calculateElasticity isoTime series_unsorted) = rev series_unsorted /\
  snd (calculateElasticity isoTime series_unsorted) <> series_unsorted.
Proof.
  assert (H : snd (calculateElasticity isoTime series_unsorted) = rev series_unsorted).
  { rewrite calculateElasticity_array. simpl Nat.ltb. cbv iota. apply unsorted_sorted. }
  split; [exact H|].
  rewrite H. intros E.
  apply (f_equal (fun l => SalesDataPoint.category (hd no_element l))) in E.
  discriminate E.
Qed.

(** * Further properties *)

(** ** Powers of a positive base against 1 *)







(** ** The revenue change in closed form *)

(** For a positive price and quantity the revenue change depends on the
    offset and the elasticity alone. *)
Lemma revenue_change_positive e p q c :
  0 < p -> 0 < q -> 0 < c ->
  revenue_change_pct (Num e) (Num p) (Num q) (Num (p * c))
  = Num ((Rpower c (1 + e) - 1) * 100).
Proof.
  intros Hp Hq Hc. unfold revenue_change_pct.
  rewrite div_Num by lra.
  replace (p * c / p) with c by (field; lra).
  rewrite Math_pow_pos by exact Hc.
  cbn [mul]. rewrite sub_Num, div_Num by nra. cbn [mul].
  rewrite Rpower_plus, Rpower_1 by exact Hc.
  f_equal. field. lra.
Qed.



(** X1: when the latest observation has a finite positive price and
    quantity, the expected revenue change of a result is
    [(c^(1 + elasticity) - 1) * 100] with [c] the offset of its branch
    (0.9 when elastic, 1.1 otherwise): it depends on neither the current
    price nor the current quantity. *)
Theorem estimator_revenue_change_closed_form (getTime : string -> Z) dataPoints r p q :
  fst (calculateElasticity getTime dataPoints) = Some r ->
  let latest := last (Array_sort (byDate getTime) dataPoints) no_element in
  SalesDataPoint.price latest = Num p ->
  SalesDataPoint.quantity_sold latest = Num q ->
  0 < p -> 0 < q ->
  exists e,
    ElasticityResult.elasticity r = Num e /\
    ElasticityResult.expected_revenue_change r
    = Num ((Rpower (if ElasticityResult.is_elastic r then 0.9 else 1.1) (1 + e) - 1) * 100).
Proof.
  intros Hr latest Hp Hq Hp0 Hq0.
  apply calculateElasticity_some in Hr as (_ & _ & _ & ->).
  eexists. split; [reflexivity|].
  cbn [estimate ElasticityResult.expected_revenue_change ElasticityResult.is_elastic].
  fold latest. rewrite Hp, Hq. cbn [mul].
  apply revenue_change_positive; try assumption.
  destruct (Rltb 1 _); lra.
Qed.


(** ** The optimiser in closed form *)

Lemma gt_abs_Num e : gt (Math_abs (Num e)) (Num 1) = Rltb 1 (Rabs e).
Proof. reflexivity. Qed.


(** The statement of the profit policy with the cost argument resolved. *)
Lemma profit_closed_form_aux e p q cost costPerUnit :
  match costPerUnit with Some c => c | None => Num 0 end = Num cost ->
  let result := optimizePrice (Num e) (Num p) (Num q) costPerUnit (Some profit) in
  let current_profit := mul (sub (Num p) (Num cost)) (Num q) in
  let predicted_quantity :=
    mul (Num q) (Math_pow (div (optimal_price result) (Num p)) (Num e)) in
  let predicted_profit := mul (sub (optimal_price result) (Num cost)) predicted_quantity in
  (gt current_profit (Num 0) = false -> expected_change result = Num 0) /\
  (gt current_profit (Num 0) = true ->
   expected_change result
   = mul (div (sub predicted_profit current_profit) current_profit) (Num 100)).
Proof.
  intros Hcost. cbv zeta. unfold optimizePrice. cbv zeta. cbn [expected_change optimal_price].
  rewrite Hcost. split; intros H; now rewrite H.
Qed.

(** X4: in exact arithmetic (no rounding, overflow or underflow), under
    the profit target, for a finite elasticity, a positive quantity and a
    unit cost below a positive price, the expected change is
    [((p * k - cost) * k^elasticity / (p - cost) - 1) * 100], [k] being the
    offset 0.9 or 1.2: it does not depend on the quantity, and it is below
    -100 percent exactly when the optimal price [p * k] is below the unit
    cost. *)
Theorem optimizePrice_profit_closed_form e p q cost costPerUnit :
  match costPerUnit with Some c => c | None => Num 0 end = Num cost ->
  0 < p -> 0 < q -> cost < p ->
  let k := offset profit (Rltb 1 (Rabs e)) in
  let v := ((p * k - cost) * Rpower k e / (p - cost) - 1) * 100 in
  let result := optimizePrice (Num e) (Num p) (Num q) costPerUnit (Some profit) in
  optimal_price result = Num (p * k) /\
  expected_change result = Num v /\
  (v < -100 <-> p * k < cost).
Proof.
  intros Hcost Hp Hq Hc k v result.
  assert (Hk : 0 < k) by (unfold k, offset; destruct (Rltb 1 _); lra).
  assert (Hopt : optimal_price result = Num (p * k)).
  { unfold result, optimizePrice, k, offset. cbv zeta. rewrite gt_abs_Num.
    destruct (Rltb 1 (Rabs e)); reflexivity. }
  split; [exact Hopt|].
  assert (Hpow : 0 < Rpower k e) by (unfold Rpower; apply exp_pos).
  split.
  - pose proof (proj2 (profit_closed_form_aux e p q cost costPerUnit Hcost)) as H.
    cbv zeta in H. fold result in H. rewrite H; clear H.
    + rewrite Hopt. rewrite !sub_Num.
      rewrite div_Num by lra.
      replace (p * k / p) with k by (field; lra).
      rewrite Math_pow_pos by exact Hk.
      cbn [mul]. rewrite sub_Num, div_Num by nra. cbn [mul].
      f_equal. unfold v. field. lra.
    + rewrite sub_Num. cbn [mul gt]. apply Rltb_true. nra.
  - assert (Hinv : 0 < / (p - cost)) by (apply Rinv_0_lt_compat; lra).
    unfold v, Rdiv.
    set (A := (p * k - cost) * Rpower k e).
    set (I := / (p - cost)) in *.
    split; intros H.
    + assert (H1 : A * I < 0) by lra.
      assert (H2 : A < 0) by nra.
      unfold A in H2. nra.
    + assert (H2 : A < 0) by (unfold A; nra).
      assert (H1 : A * I < 0) by nra.
      lra.
Qed.

(** X5: with a quantity of zero the two targets differ: the revenue target
    divides by the zero baseline revenue and gives NaN, the profit target
    falls into its guard and gives 0. *)
Theorem optimizePrice_zero_quantity e p costPerUnit :
  expected_change (optimizePrice (Num e) (Num p) (Num 0) costPerUnit (Some revenue)) = NaN /\
  expected_change (optimizePrice (Num e) (Num p) (Num 0) costPerUnit (Some profit)) = Num 0.
Proof.
  split.
  - unfold optimizePrice. cbv zeta. rewrite gt_abs_Num.
    destruct (Rltb 1 (Rabs e)); cbn [expected_change];
      apply (revenue_change_zero_baseline e p 0); lra.
  - unfold optimizePrice. cbv zeta. cbn [expected_change].
    set (cost := match costPerUnit with Some c => c | None => Num 0 end).
    assert (H : gt (mul (sub (Num p) cost) (Num 0)) (Num 0) = false).
    { destruct cost as [c| | |]; cbn; unfold inf_signed; rdec; try reflexivity; lra. }
    now rewrite H.
Qed.

(** ** The fit: order independence and closed form *)

Section FitInvariance.
Variables pts pts' : list (R * R).
Hypothesis Hperm : Permutation pts pts'.

Lemma Syy_perm : Syy pts = Syy pts'.
Proof.
  unfold Syy. rewrite (mq_perm _ _ Hperm). now apply Rsum_perm, Permutation_map.
Qed.

Lemma RSS_perm : RSS pts = RSS pts'.
Proof.
  unfold RSS, residual.
  rewrite (mp_perm _ _ Hperm), (mq_perm _ _ Hperm), (ols_slope_perm _ _ Hperm).
  now apply Rsum_perm, Permutation_map.
Qed.

Lemma goodness_of_fit_perm : goodness_of_fit pts = goodness_of_fit pts'.
Proof. unfold goodness_of_fit. now rewrite Syy_perm, RSS_perm. Qed.
End FitInvariance.

Lemma goodness_of_fit_closed_form pts :
  Sxx pts <> 0 ->
  goodness_of_fit pts
  = if Rltb 0 (Syy pts) then Sxy pts * Sxy pts / (Sxx pts * Syy pts) else 0.
Proof.
  intros Hx. unfold goodness_of_fit.
  destruct (Rltb 0 (Syy pts)) eqn:Hs; [|reflexivity].
  apply Rltb_true in Hs. rewrite (RSS_closed_form pts Hx). field. lra.
Qed.

(** X6: the goodness of fit of a result is the squared correlation of the
    log-prices and log-quantities of the usable observations,
    [Sxy^2 / (Sxx * Syy)], and 0 when the log-quantities are all equal. *)
Theorem r_squared_closed_form (getTime : string -> Z) dataPoints r :
  fst (calculateElasticity getTime dataPoints) = Some r ->
  let pts := regression_set dataPoints in
  ElasticityResult.r_squared r
  = Num (if Rltb 0 (Syy pts) then Sxy pts * Sxy pts / (Sxx pts * Syy pts) else 0).
Proof.
  intros Hr pts.
  apply calculateElasticity_some in Hr as (_ & _ & Hx & ->).
  cbn [estimate ElasticityResult.r_squared]. f_equal.
  rewrite (goodness_of_fit_perm _ _ (regression_set_sorted getTime dataPoints)).
  now apply goodness_of_fit_closed_form.
Qed.

Lemma Syy_two x1 y1 x2 y2 :
  Syy [(x1, y1); (x2, y2)] = (y2 - y1) * (y2 - y1) / 2.
Proof. unfold Syy, mq, mean. simpl. field. Qed.

(** X7: in exact arithmetic (no rounding), a result computed from exactly
    two usable observations has for elasticity the slope of the line
    through the two points of the log-log plane, and its goodness of fit
    carries no information: it is 1 when the two quantities differ and 0
    when they are equal. *)
Theorem two_usable_observations (getTime : string -> Z) dataPoints r x1 y1 x2 y2 :
  fst (calculateElasticity getTime dataPoints) = Some r ->
  regression_set dataPoints = [(x1, y1); (x2, y2)] ->
  ElasticityResult.elasticity r = Num ((y2 - y1) / (x2 - x1)) /\
  ElasticityResult.r_squared r = Num (if Reqb y1 y2 then 0 else 1).
Proof.
  intros Hr Hpts.
  apply calculateElasticity_some in Hr as (_ & _ & Hxx & ->).
  assert (Hx : x1 <> x2).
  { intros ->. apply Hxx. rewrite Hpts, Sxx_two. field. }
  cbn [estimate ElasticityResult.elasticity ElasticityResult.r_squared].
  rewrite (ols_slope_perm _ _ (regression_set_sorted getTime dataPoints)).
  rewrite (goodness_of_fit_perm _ _ (regression_set_sorted getTime dataPoints)).
  rewrite goodness_of_fit_closed_form by exact Hxx.
  rewrite Hpts, ols_slope_two, Sxx_two, Sxy_two, Syy_two by exact Hx.
  split; [reflexivity|]. f_equal.
  destruct (Reqb y1 y2) eqn:Hy.
  - apply Reqb_true in Hy. subst y2.
    replace (Rltb 0 ((y1 - y1) * (y1 - y1) / 2)) with false; [reflexivity|].
    symmetry. apply Rltb_false. lra.
  - apply Reqb_false in Hy.
    replace (Rltb 0 ((y2 - y1) * (y2 - y1) / 2)) with true.
    + field. lra.
    + symmetry. apply Rltb_true. nra.
Qed.

(** Two arrays whose usable observations are the same up to order both give
    no result, or give results with the same fit. *)
Lemma same_regression_set_same_fit (getTime : string -> Z) l l' :
  Permutation (regression_set l) (regression_set l') ->
  match fst (calculateElasticity getTime l), fst (calculateElasticity getTime l') with
  | Some r, Some r' =>
      ElasticityResult.elasticity r = ElasticityResult.elasticity r' /\
      ElasticityResult.r_squared r = ElasticityResult.r_squared r' /\
      ElasticityResult.is_elastic r = ElasticityResult.is_elastic r'
  | None, None => True
  | _, _ => False
  end.
Proof.
  intros Hp.
  assert (Hfwd : forall l l', Permutation (regression_set l) (regression_set l') ->
                   forall r, fst (calculateElasticity getTime l) = Some r ->
                   exists r', fst (calculateElasticity getTime l') = Some r' /\
                     ElasticityResult.elasticity r = ElasticityResult.elasticity r' /\
                     ElasticityResult.r_squared r = ElasticityResult.r_squared r' /\
                     ElasticityResult.is_elastic r = ElasticityResult.is_elastic r').
  { clear l l' Hp. intros l l' Hll r Hr.
    apply calculateElasticity_some in Hr as (_ & Hn & Hx & ->).
    rewrite (Permutation_length Hll) in Hn. rewrite (Sxx_perm _ _ Hll) in Hx.
    eexists. split; [now apply calculateElasticity_defined|].
    cbn [estimate ElasticityResult.elasticity ElasticityResult.r_squared
         ElasticityResult.is_elastic].
    assert (Hs : Permutation (regression_set (Array_sort (byDate getTime) l))
                             (regression_set (Array_sort (byDate getTime) l'))).
    { eapply perm_trans; [apply regression_set_sorted|].
      eapply perm_trans; [exact Hll|].
      apply Permutation_sym, regression_set_sorted. }
    now rewrite (ols_slope_perm _ _ Hs), (goodness_of_fit_perm _ _ Hs). }
  destruct (fst (calculateElasticity getTime l)) as [r|] eqn:Hr.
  - destruct (Hfwd _ _ Hp r Hr) as (r' & -> & H). exact H.
  - destruct (fst (calculateElasticity getTime l')) as [r'|] eqn:Hr'; [|exact I].
    destruct (Hfwd _ _ (Permutation_sym Hp) r' Hr') as (r & Hr2 & _).
    congruence.
Qed.

Lemma regression_set_usable l : regression_set (filter usable l) = regression_set l.
Proof.
  unfold regression_set. f_equal.
  induction l as [|p l IH]; [reflexivity|].
  cbn [filter]. destruct (usable p) eqn:Hu; [|exact IH].
  cbn [filter]. now rewrite Hu, IH.
Qed.

(** X23: observations whose price or quantity is zero, negative, infinite
    or NaN do not enter the estimate: with or without them the call gives
    no result, or results with the same elasticity, goodness of fit and
    classification. *)
Theorem unusable_observations_ignored (getTime : string -> Z) dataPoints :
  match fst (calculateElasticity getTime dataPoints),
        fst (calculateElasticity getTime (filter usable dataPoints)) with
  | Some r, Some r' =>
      ElasticityResult.elasticity r = ElasticityResult.elasticity r' /\
      ElasticityResult.r_squared r = ElasticityResult.r_squared r' /\
      ElasticityResult.is_elastic r = ElasticityResult.is_elastic r'
  | None, None => True
  | _, _ => False
  end.
Proof.
  apply same_regression_set_same_fit.
  rewrite regression_set_usable. apply Permutation_refl.
Qed.

Lemma sorted_unique (getTime : string -> Z) l1 :
  forall l2,
    StronglySorted (not_later getTime) l1 ->
    StronglySorted (not_later getTime) l2 ->
    Permutation l1 l2 ->
    NoDup (map (time_of getTime) l1) ->
    l1 = l2.
Proof.
  induction l1 as [|a l1 IH]; intros l2 H1 H2 Hperm Hnd.
  - apply Permutation_nil in Hperm. now subst.
  - destruct l2 as [|b l2].
    { apply Permutation_sym, Permutation_nil in Hperm. discriminate. }
    inversion H1 as [|? ? Hs1 Ha]; subst.
    inversion H2 as [|? ? Hs2 Hb]; subst.
    rewrite Forall_forall in Ha, Hb.
    assert (Hab : a = b).
    { assert (Hbin : In b (a :: l1))
        by (apply (Permutation_in _ (Permutation_sym Hperm)); now left).
      assert (Hain : In a (b :: l2))
        by (apply (Permutation_in _ Hperm); now left).
      destruct Hbin as [E|Hbin]; [exact E|].
      destruct Hain as [E|Hain]; [now symmetry|].
      pose proof (Ha b Hbin) as Hle1. pose proof (Hb a Hain) as Hle2.
      unfold not_later in Hle1, Hle2.
      assert (Ht : time_of getTime a = time_of getTime b) by lia.
      simpl in Hnd. inversion Hnd as [|? ? Hnot _]; subst.
      exfalso. apply Hnot. rewrite Ht. now apply in_map. }
    subst b. f_equal. apply IH; try assumption.
    + now apply Permutation_cons_inv in Hperm.
    + simpl in Hnd. now inversion Hnd.
Qed.

(** X9: when the dates of the observations are pairwise distinct, the whole
    result (labels, current and recommended price included) and the array
    left to the caller are the same for every order of the input. *)
Theorem result_order_independent (getTime : string -> Z) dataPoints dataPoints' :
  Permutation dataPoints dataPoints' ->
  NoDup (map (time_of getTime) dataPoints) ->
  calculateElasticity getTime dataPoints = calculateElasticity getTime dataPoints'.
Proof.
  intros Hperm Hnd.
  destruct (le_lt_dec 2 (List.length dataPoints)) as [Hlen|Hlen].
  2:{ destruct dataPoints as [|a [|b l]]; [| |simpl in Hlen; lia].
      - apply Permutation_nil in Hperm. now subst.
      - apply Permutation_length_1_inv in Hperm. now subst. }
  assert (Hs : Array_sort (byDate getTime) dataPoints
               = Array_sort (byDate getTime) dataPoints').
  { apply (sorted_unique getTime); try apply Array_sort_sorted.
    - eapply perm_trans; [apply Array_sort_perm|].
      eapply perm_trans; [exact Hperm|]. apply Permutation_sym, Array_sort_perm.
    - eapply Permutation_NoDup; [|exact Hnd].
      apply Permutation_map, Permutation_sym, Array_sort_perm. }
  rewrite !calculateElasticity_eq. cbv zeta.
  rewrite <- Hs, <- (Permutation_length Hperm).
  replace (List.length dataPoints <? 2)%nat with false
    by (symmetry; apply Nat.ltb_ge; lia).
  reflexivity.
Qed.

(** ** Grouping by product *)

Lemma existsb_eqb_In key names :
  existsb (String.eqb key) names = true <-> In key names.
Proof.
  rewrite existsb_exists. split.
  - intros (k & Hk & E). apply String.eqb_eq in E. now subst.
  - intros H. exists key. split; [exact H | apply String.eqb_refl].
Qed.

Lemma add_name_In names key k :
  In k (add_name names key) <-> In k names \/ k = key.
Proof.
  unfold add_name. destruct (existsb (String.eqb key) names) eqn:E.
  - apply existsb_eqb_In in E. split; [auto | intros [H| ->]; assumption].
  - rewrite in_app_iff. simpl. intuition.
Qed.

Lemma add_name_NoDup names key : NoDup names -> NoDup (add_name names key).
Proof.
  intros H. unfold add_name. destruct (existsb (String.eqb key) names) eqn:E; [exact H|].
  assert (Hn : ~ In key names).
  { intros Hin. apply existsb_eqb_In in Hin. congruence. }
  apply NoDup_rev in H. rewrite <- (rev_involutive (names ++ [key])).
  apply NoDup_rev. rewrite rev_app_distr. simpl. constructor; [|exact H].
  now rewrite <- in_rev.
Qed.

Lemma fold_add_name_In keys names k :
  In k (fold_left add_name keys names) <-> In k names \/ In k keys.
Proof.
  revert names. induction keys as [|key keys IH]; intros names; simpl.
  - intuition.
  - rewrite IH, add_name_In. intuition.
Qed.

Lemma fold_add_name_NoDup keys names :
  NoDup names -> NoDup (fold_left add_name keys names).
Proof.
  revert names. induction keys as [|key keys IH]; intros names H; simpl;
    [exact H | apply IH, add_name_NoDup, H].
Qed.

Lemma distinct_names_In data k :
  In k (distinct_names data) <-> In k (map SalesDataPoint.product_name data).
Proof. unfold distinct_names. rewrite fold_add_name_In. simpl. intuition. Qed.

Lemma distinct_names_NoDup data : NoDup (distinct_names data).
Proof. apply fold_add_name_NoDup. constructor. Qed.

Lemma observations_of_app k pre item :
  observations_of k (pre ++ [item])
  = observations_of k pre ++ (if name_is k item then [item] else []).
Proof. unfold observations_of. rewrite filter_app. reflexivity. Qed.

Lemma observations_of_In k data p :
  In p (observations_of k data) <-> In p data /\ SalesDataPoint.product_name p = k.
Proof.
  unfold observations_of, name_is. rewrite filter_In, String.eqb_eq. reflexivity.
Qed.

Lemma observations_of_absent k data :
  ~ In k (map SalesDataPoint.product_name data) -> observations_of k data = [].
Proof.
  intros H. destruct (observations_of k data) as [|p l] eqn:E; [reflexivity|].
  exfalso. apply H.
  assert (Hp : In p (observations_of k data)) by (rewrite E; now left).
  apply observations_of_In in Hp as [Hp <-]. now apply in_map.
Qed.

Lemma own_property_grouping keys data key :
  own_property (grouping keys data) key
  = if existsb (String.eqb key) keys then Some (observations_of key data) else None.
Proof.
  induction keys as [|k keys IH]; [reflexivity|].
  cbn [grouping map own_property existsb]. fold (grouping keys data).
  rewrite (String.eqb_sym key k).
  destruct (String.eqb_spec k key) as [->|Hne]; [reflexivity | exact IH].
Qed.

Lemma grouping_ext keys data data' :
  (forall k, In k keys -> observations_of k data = observations_of k data') ->
  grouping keys data = grouping keys data'.
Proof.
  intros H. unfold grouping. apply map_ext_in. intros k Hk. now rewrite H.
Qed.

Lemma push_item_grouping keys pre item :
  NoDup keys ->
  In (SalesDataPoint.product_name item) keys ->
  push_item (grouping keys pre) (SalesDataPoint.product_name item) item
  = grouping keys (pre ++ [item]).
Proof.
  set (key := SalesDataPoint.product_name item).
  induction keys as [|k keys IH]; intros Hnd Hin; [contradiction|].
  inversion Hnd as [|? ? Hnot Hnd']; subst.
  cbn [grouping map push_item]. fold (grouping keys pre) (grouping keys (pre ++ [item])).
  rewrite observations_of_app. unfold name_is at 1. fold key.
  rewrite (String.eqb_sym key k).
  destruct (String.eqb_spec k key) as [E|Hne].
  - f_equal. apply grouping_ext. intros k' Hk'.
    rewrite observations_of_app. unfold name_is. fold key.
    destruct (String.eqb_spec key k') as [E'|_]; [|now rewrite app_nil_r].
    exfalso. apply Hnot. congruence.
  - rewrite app_nil_r. f_equal. apply IH; [exact Hnd'|].
    destruct Hin as [E|Hin]; [contradiction | exact Hin].
Qed.

Lemma append_group_grouping keys pre item :
  ~ In (SalesDataPoint.product_name item) keys ->
  (forall p, In p pre -> In (SalesDataPoint.product_name p) keys) ->
  grouping keys pre ++ [(SalesDataPoint.product_name item, [item])]
  = grouping (keys ++ [SalesDataPoint.product_name item]) (pre ++ [item]).
Proof.
  set (key := SalesDataPoint.product_name item).
  intros Hnot Hcover. unfold grouping. rewrite map_app. f_equal.
  - apply map_ext_in. intros k Hk. f_equal.
    rewrite observations_of_app. unfold name_is. fold key.
    destruct (String.eqb_spec key k) as [E|_]; [|now rewrite app_nil_r].
    exfalso. apply Hnot. congruence.
  - cbn [map]. f_equal. f_equal.
    rewrite observations_of_app. unfold name_is. fold key.
    rewrite String.eqb_refl.
    rewrite observations_of_absent; [reflexivity|].
    intros Hin. apply in_map_iff in Hin as (p & Hp & Hpin).
    apply Hnot. rewrite <- Hp. now apply Hcover.
Qed.

Lemma group_step_grouping keys pre item :
  grouped keys pre ->
  group_step (grouping keys pre) item
  = if inherited (SalesDataPoint.product_name item) then Throws_TypeError
    else Returns (grouping (add_name keys (SalesDataPoint.product_name item))
                           (pre ++ [item])).
Proof.
  intros (Hnd & Hcover & Hown).
  unfold group_step, add_name. cbv zeta. rewrite own_property_grouping.
  destruct (existsb (String.eqb (SalesDataPoint.product_name item)) keys) eqn:E.
  - apply existsb_eqb_In in E. rewrite (Hown _ E).
    now rewrite push_item_grouping.
  - destruct (inherited (SalesDataPoint.product_name item)); [reflexivity|].
    rewrite append_group_grouping; [reflexivity | | exact Hcover].
    intros Hin. apply existsb_eqb_In in Hin. congruence.
Qed.

Lemma grouped_step keys pre item :
  grouped keys pre ->
  inherited (SalesDataPoint.product_name item) = false ->
  grouped (add_name keys (SalesDataPoint.product_name item)) (pre ++ [item]).
Proof.
  intros (Hnd & Hcover & Hown) Hinh. repeat split.
  - now apply add_name_NoDup.
  - intros p Hp. apply add_name_In. apply in_app_iff in Hp as [Hp|[<-|[]]]; auto.
  - intros k Hk. apply add_name_In in Hk as [Hk| ->]; auto.
Qed.

Lemma reduce_groups_grouping rest :
  forall keys pre,
    grouped keys pre ->
    reduce_groups rest (grouping keys pre)
    = if has_inherited_name rest then Throws_TypeError
      else Returns (grouping (fold_left add_name (map SalesDataPoint.product_name rest) keys)
                             (pre ++ rest)).
Proof.
  induction rest as [|item rest IH]; intros keys pre Hg.
  - simpl. now rewrite app_nil_r.
  - cbn [reduce_groups has_inherited_name existsb map fold_left].
    rewrite (group_step_grouping _ _ _ Hg).
    destruct (inherited (SalesDataPoint.product_name item)) eqn:Hinh; [reflexivity|].
    cbn [orb]. rewrite (IH _ _ (grouped_step _ _ _ Hg Hinh)).
    fold (has_inherited_name rest).
    now rewrite <- app_assoc.
Qed.

Lemma reduce_groups_data data :
  reduce_groups data []
  = if has_inherited_name data then Throws_TypeError
    else Returns (grouping (distinct_names data) data).
Proof.
  apply (reduce_groups_grouping data [] []).
  repeat split; [constructor | intros ? [] | intros ? []].
Qed.

(** ** The entries and the results *)

Lemma insert_entry_perm e l : Permutation (insert_entry e l) (e :: l).
Proof.
  induction l as [|e' l IH]; simpl; [apply Permutation_refl|].
  destruct (index_of (fst e') <? index_of (fst e))%Z.
  - eapply perm_trans; [apply perm_skip, IH | apply perm_swap].
  - apply Permutation_refl.
Qed.

Lemma sort_entries_perm l : Permutation (sort_entries l) l.
Proof.
  induction l as [|e l IH]; simpl; [constructor|].
  eapply perm_trans; [apply insert_entry_perm | now apply perm_skip].
Qed.

Lemma filter_split_perm {A : Type} (f : A -> bool) l :
  Permutation (filter f l ++ filter (fun x => negb (f x)) l) l.
Proof.
  induction l as [|x l IH]; simpl; [constructor|].
  destruct (f x); simpl.
  - now apply perm_skip.
  - apply Permutation_sym, Permutation_cons_app, Permutation_sym, IH.
Qed.

Lemma Object_entries_perm groups : Permutation (Object_entries groups) groups.
Proof.
  unfold Object_entries.
  eapply perm_trans; [|apply (filter_split_perm (fun e => is_array_index (fst e)))].
  apply Permutation_app_tail, sort_entries_perm.
Qed.

Lemma short_array_no_result getTime (l : list SalesDataPoint.t) :
  (2 <=? List.length l)%nat = false -> fst (calculateElasticity getTime l) = None.
Proof.
  intros H. rewrite calculateElasticity_eq.
  replace (List.length l <? 2)%nat with true; [reflexivity|].
  symmetry. apply Nat.ltb_lt. apply Nat.leb_gt in H. exact H.
Qed.

Lemma fold_analyze_entry getTime entries :
  forall results,
    fold_left (analyze_entry getTime) entries results
    = results ++ flat_map (entry_result getTime) entries.
Proof.
  induction entries as [|[k arr] entries IH]; intros results;
    cbn [fold_left flat_map].
  - now rewrite app_nil_r.
  - rewrite IH. unfold analyze_entry, entry_result. cbn [snd].
    destruct (2 <=? List.length arr)%nat eqn:Hlen.
    + destruct (fst (calculateElasticity getTime arr));
        [now rewrite <- app_assoc | reflexivity].
    + now rewrite (short_array_no_result getTime arr Hlen).
Qed.

Lemma analyzeElasticity_eq getTime data :
  analyzeElasticity getTime data
  = if has_inherited_name data then Throws_TypeError
    else Returns (flat_map (entry_result getTime)
                           (Object_entries (grouping (distinct_names data) data))).
Proof.
  unfold analyzeElasticity. rewrite reduce_groups_data.
  destruct (has_inherited_name data); [reflexivity|].
  now rewrite fold_analyze_entry.
Qed.

(** ** analyzeElasticity: what the caller gets *)

Lemma inherited_In key : inherited key = true <-> In key Object_prototype_names.
Proof. apply existsb_eqb_In. Qed.

Lemma has_inherited_name_spec data :
  has_inherited_name data = true
  <-> exists item, In item data /\
                   In (SalesDataPoint.product_name item) Object_prototype_names.
Proof.
  unfold has_inherited_name. rewrite existsb_exists.
  split; intros (item & Hin & H); exists item; split; try assumption;
    now apply inherited_In.
Qed.

(** X11: [analyzeElasticity] throws a TypeError exactly when some row
    carries a product name that is a property name of [Object.prototype]
    (constructor, toString, valueOf, __proto__, ...): the lookup
    [groups[key]] then finds the inherited value, no array is created, and
    [push] is not a function.  On every other input it returns. *)
Theorem analyzeElasticity_throws (getTime : string -> Z) data :
  analyzeElasticity getTime data = Throws_TypeError
  <-> exists item, In item data /\
                   In (SalesDataPoint.product_name item) Object_prototype_names.
Proof.
  rewrite <- has_inherited_name_spec, analyzeElasticity_eq.
  destruct (has_inherited_name data); split; intros H; congruence.
Qed.

Lemma hd_In (l : list SalesDataPoint.t) d : l <> [] -> In (hd d l) l.
Proof. destruct l; [congruence | intros _; now left]. Qed.

Lemma entry_result_spec getTime key data r :
  In r (entry_result getTime (key, observations_of key data))
  <-> fst (calculateElasticity getTime (observations_of key data)) = Some r.
Proof.
  unfold entry_result. cbn [snd].
  destruct (fst (calculateElasticity getTime (observations_of key data))) as [r0|].
  - simpl. split; [intros [->|[]]; reflexivity | intros [= ->]; now left].
  - simpl. split; [contradiction | discriminate].
Qed.

Lemma result_name_of_group getTime key data r :
  fst (calculateElasticity getTime (observations_of key data)) = Some r ->
  ElasticityResult.product_name r = key /\
  In key (map SalesDataPoint.product_name data).
Proof.
  intros Hr. apply calculateElasticity_some in Hr as (Hlen & _ & _ & ->).
  cbn [estimate ElasticityResult.product_name].
  set (sorted := Array_sort (byDate getTime) (observations_of key data)).
  assert (Hne : sorted <> []).
  { intros E. apply (f_equal (@List.length _)) in E. unfold sorted in E.
    rewrite Array_sort_length in E. simpl in E. lia. }
  pose proof (hd_In sorted no_element Hne) as Hin.
  apply (Permutation_in _ (Array_sort_perm _ _)) in Hin.
  apply observations_of_In in Hin as [Hin Hname].
  split; [exact Hname|]. rewrite <- Hname. now apply in_map.
Qed.

Lemma In_results getTime data r :
  In r (flat_map (entry_result getTime)
                 (Object_entries (grouping (distinct_names data) data)))
  <-> exists key, In key (map SalesDataPoint.product_name data) /\
                  fst (calculateElasticity getTime (observations_of key data)) = Some r.
Proof.
  rewrite in_flat_map. split.
  - intros (e & He & Hr).
    apply (Permutation_in _ (Object_entries_perm _)) in He.
    unfold grouping in He. apply in_map_iff in He as (key & <- & Hkey).
    exists key. split; [now apply distinct_names_In | now apply entry_result_spec].
  - intros (key & Hkey & Hr).
    exists (key, observations_of key data). split; [|now apply entry_result_spec].
    apply (Permutation_in _ (Permutation_sym (Object_entries_perm _))).
    unfold grouping. apply in_map_iff. exists key. split; [reflexivity|].
    now apply distinct_names_In.
Qed.

Lemma analyzeElasticity_per_product_aux (getTime : string -> Z) data results :
  analyzeElasticity getTime data = Returns results ->
  forall r,
    In r results ->
    In (ElasticityResult.product_name r) (map SalesDataPoint.product_name data).
Proof.
  rewrite analyzeElasticity_eq.
  destruct (has_inherited_name data); [discriminate|].
  intros [= <-] r Hr. apply In_results in Hr as (key & Hkey & Hr).
  destruct (result_name_of_group _ _ _ _ Hr) as [-> _]. exact Hkey.
Qed.

(** X12: when [analyzeElasticity] returns, its results are exactly the
    estimates of the products: a result is in the array exactly when it is
    what [calculateElasticity] returns for the rows that carry its product
    name, taken in the order of the data. *)
Theorem analyzeElasticity_per_product (getTime : string -> Z) data results :
  analyzeElasticity getTime data = Returns results ->
  forall r,
    In r results
    <-> In (ElasticityResult.product_name r) (map SalesDataPoint.product_name data) /\
        fst (calculateElasticity getTime
               (observations_of (ElasticityResult.product_name r) data)) = Some r.
Proof.
  rewrite analyzeElasticity_eq.
  destruct (has_inherited_name data); [discriminate|].
  intros [= <-] r. rewrite In_results. split.
  - intros (key & Hkey & Hr).
    destruct (result_name_of_group _ _ _ _ Hr) as [Hname _].
    rewrite Hname. auto.
  - intros [Hkey Hr]. eauto.
Qed.

Lemma results_names_NoDup getTime data entries :
  NoDup (map fst entries) ->
  (forall e, In e entries -> snd e = observations_of (fst e) data) ->
  NoDup (map ElasticityResult.product_name (flat_map (entry_result getTime) entries)).
Proof.
  induction entries as [|[k arr] entries IH]; intros Hnd Hobs; [constructor|].
  cbn [flat_map map fst] in *. inversion Hnd as [|? ? Hnot Hnd']; subst.
  rewrite map_app.
  assert (Harr : arr = observations_of k data) by (apply (Hobs (k, arr)); now left).
  assert (Htail : forall r, In r (flat_map (entry_result getTime) entries) ->
                            In (ElasticityResult.product_name r) (map fst entries)).
  { intros r Hr. apply in_flat_map in Hr as ([k' arr'] & He & Hr).
    assert (Harr' : arr' = observations_of k' data) by (apply (Hobs (k', arr')); now right).
    subst arr'. apply entry_result_spec, result_name_of_group in Hr as [-> _].
    change k' with (fst (k', observations_of k' data)). now apply in_map. }
  specialize (IH Hnd' (fun e He => Hobs e (or_intror He))).
  unfold entry_result at 1. cbn [snd].
  destruct (fst (calculateElasticity getTime arr)) as [r|] eqn:Hr; [|exact IH].
  cbn [map app]. constructor; [|exact IH].
  subst arr. apply result_name_of_group in Hr as [-> _].
  intros Hin. apply Hnot. apply in_map_iff in Hin as (r' & Hname & Hr').
  rewrite <- Hname. now apply Htail.
Qed.

Lemma grouping_keys keys data : map fst (grouping keys data) = keys.
Proof. unfold grouping. rewrite map_map. simpl. apply map_id. Qed.

(** X13: the results carry pairwise distinct product names, each of them a
    product name of the data: the rows built from them cannot collide on
    the key [(user_id, product_name)] of the upsert. *)
Theorem analyzeElasticity_distinct_products (getTime : string -> Z) data results :
  analyzeElasticity getTime data = Returns results ->
  NoDup (map ElasticityResult.product_name results) /\
  (forall r, In r results ->
             In (ElasticityResult.product_name r) (map SalesDataPoint.product_name data)) /\
  (List.length results <= List.length (distinct_names data))%nat.
Proof.
  intros Hres.
  pose proof (analyzeElasticity_per_product_aux getTime data results Hres) as Hmem.
  rewrite analyzeElasticity_eq in Hres.
  destruct (has_inherited_name data); [discriminate|].
  injection Hres as <-.
  assert (Hnd : NoDup (map ElasticityResult.product_name
                         (flat_map (entry_result getTime)
                            (Object_entries (grouping (distinct_names data) data))))).
  { apply (results_names_NoDup getTime data).
    - eapply Permutation_NoDup.
      + apply Permutation_map, Permutation_sym, Object_entries_perm.
      + rewrite grouping_keys. apply distinct_names_NoDup.
    - intros e He. apply (Permutation_in _ (Object_entries_perm _)) in He.
      unfold grouping in He. apply in_map_iff in He as (k & <- & _). reflexivity. }
  split; [exact Hnd|]. split.
  - intros r Hr. now apply Hmem in Hr.
  - rewrite <- (length_map ElasticityResult.product_name).
    apply NoDup_incl_length; [exact Hnd|].
    intros k Hk. apply in_map_iff in Hk as (r & <- & Hr).
    apply distinct_names_In. now apply Hmem in Hr.
Qed.

(** ** Data in date order *)

Lemma StronglySorted_filter {A : Type} (R : A -> A -> Prop) (f : A -> bool) l :
  StronglySorted R l -> StronglySorted R (filter f l).
Proof.
  induction 1 as [|a l Hs IH Ha]; simpl; [constructor|].
  destruct (f a); [|exact IH].
  constructor; [exact IH|].
  rewrite Forall_forall in *. intros x Hx. apply Ha.
  now apply filter_In in Hx.
Qed.

Lemma date_ordered_result (getTime : string -> Z) dataPoints r :
  StronglySorted (not_later getTime) dataPoints ->
  fst (calculateElasticity getTime dataPoints) = Some r ->
  snd (calculateElasticity getTime dataPoints) = dataPoints /\
  ElasticityResult.product_name r
  = SalesDataPoint.product_name (hd no_element dataPoints) /\
  ElasticityResult.category r = SalesDataPoint.category (hd no_element dataPoints) /\
  ElasticityResult.current_price r = SalesDataPoint.price (last dataPoints no_element).
Proof.
  intros Hs Hr.
  split.
  { rewrite calculateElasticity_array, (Array_sort_fixed getTime _ Hs).
    now destruct (List.length dataPoints <? 2)%nat. }
  apply calculateElasticity_some in Hr as (_ & _ & _ & ->).
  rewrite (Array_sort_fixed getTime _ Hs). repeat split.
Qed.

(** X14: for an array already in date order the call has no effect on the
    array, the labels are those of the first observation supplied and the
    current price is that of the last one. *)
Theorem date_ordered_input (getTime : string -> Z) dataPoints r :
  StronglySorted (not_later getTime) dataPoints ->
  fst (calculateElasticity getTime dataPoints) = Some r ->
  snd (calculateElasticity getTime dataPoints) = dataPoints /\
  ElasticityResult.product_name r
  = SalesDataPoint.product_name (hd no_element dataPoints) /\
  ElasticityResult.category r = SalesDataPoint.category (hd no_element dataPoints) /\
  ElasticityResult.current_price r = SalesDataPoint.price (last dataPoints no_element).
Proof. apply date_ordered_result. Qed.

(** X15: when the rows are in date order, as [fetchSalesData] asks of the
    database, every result of [analyzeElasticity] carries the category of
    the first row of its product and the price of the last row of its
    product as current price. *)
Theorem analyzeElasticity_date_ordered (getTime : string -> Z) data results :
  StronglySorted (not_later getTime) data ->
  analyzeElasticity getTime data = Returns results ->
  forall r, In r results ->
    let rows := observations_of (ElasticityResult.product_name r) data in
    ElasticityResult.category r = SalesDataPoint.category (hd no_element rows) /\
    ElasticityResult.current_price r = SalesDataPoint.price (last rows no_element).
Proof.
  intros Hs Hres r Hr rows.
  rewrite analyzeElasticity_eq in Hres.
  destruct (has_inherited_name data); [discriminate|].
  injection Hres as <-.
  apply In_results in Hr as (key & _ & Hr).
  destruct (result_name_of_group _ _ _ _ Hr) as [Hname _].
  unfold rows. rewrite Hname.
  assert (Hso : StronglySorted (not_later getTime) (observations_of key data))
    by (apply StronglySorted_filter, Hs).
  destruct (date_ordered_result getTime _ r Hso Hr) as (_ & _ & Hc & Hp).
  auto.
Qed.

(** ** The order of the results *)

Lemma filter_none {A : Type} (f : A -> bool) l :
  (forall x, In x l -> f x = false) -> filter f l = [].
Proof.
  induction l as [|x l IH]; intros H; simpl; [reflexivity|].
  rewrite (H x) by now left. apply IH. intros; apply H; now right.
Qed.

Lemma filter_all {A : Type} (f : A -> bool) l :
  (forall x, In x l -> f x = true) -> filter f l = l.
Proof.
  induction l as [|x l IH]; intros H; simpl; [reflexivity|].
  rewrite (H x) by now left. f_equal. apply IH. intros; apply H; now right.
Qed.

Lemma flat_map_grouping getTime keys data :
  flat_map (entry_result getTime) (grouping keys data)
  = flat_map (fun key => entry_result getTime (key, observations_of key data)) keys.
Proof. unfold grouping. induction keys; simpl; [reflexivity | now f_equal]. Qed.

(** X16: when no product name is an array index, the results come in the
    order in which the products first appear in the data: they are the
    estimates of the distinct product names, taken in that order, that are
    not null. *)
Theorem analyzeElasticity_first_appearance (getTime : string -> Z) data results :
  (forall item, In item data ->
                array_index (SalesDataPoint.product_name item) = None) ->
  analyzeElasticity getTime data = Returns results ->
  results
  = flat_map (fun key => entry_result getTime (key, observations_of key data))
             (distinct_names data).
Proof.
  intros Hidx Hres.
  rewrite analyzeElasticity_eq in Hres.
  destruct (has_inherited_name data); [discriminate|].
  injection Hres as <-.
  rewrite <- flat_map_grouping. f_equal.
  assert (Hno : forall e, In e (grouping (distinct_names data) data) ->
                          is_array_index (fst e) = false).
  { intros e He. unfold grouping in He. apply in_map_iff in He as (k & <- & Hk).
    apply distinct_names_In, in_map_iff in Hk as (item & <- & Hitem).
    unfold is_array_index. cbn [fst]. now rewrite (Hidx item Hitem). }
  unfold Object_entries.
  rewrite (filter_none _ _ Hno). cbn [sort_entries app].
  apply filter_all. intros e He. now rewrite (Hno e He).
Qed.

(** X17: results of products whose name is an array index ("7", "42", ...)
    come before the results of all other products, wherever their rows are
    in the data. *)
Theorem analyzeElasticity_index_names_first (getTime : string -> Z) data results :
  analyzeElasticity getTime data = Returns results ->
  exists indexed named,
    results = indexed ++ named /\
    (forall r, In r indexed -> is_array_index (ElasticityResult.product_name r) = true) /\
    (forall r, In r named -> is_array_index (ElasticityResult.product_name r) = false).
Proof.
  intros Hres.
  rewrite analyzeElasticity_eq in Hres.
  destruct (has_inherited_name data); [discriminate|].
  injection Hres as <-.
  unfold Object_entries. rewrite flat_map_app.
  eexists. eexists. split; [reflexivity|].
  assert (Hname : forall e r, In e (grouping (distinct_names data) data) ->
                    In r (entry_result getTime e) ->
                    ElasticityResult.product_name r = fst e).
  { intros e r He Hr. unfold grouping in He. apply in_map_iff in He as (k & <- & _).
    apply entry_result_spec, result_name_of_group in Hr as [-> _]. reflexivity. }
  split; intros r Hr; apply in_flat_map in Hr as (e & He & Hr).
  - apply (Permutation_in _ (sort_entries_perm _)) in He.
    apply filter_In in He as [He Hidx]. now rewrite (Hname e r He Hr).
  - apply filter_In in He as [He Hidx]. rewrite (Hname e r He Hr).
    now apply negb_true_iff in Hidx.
Qed.

(** ** Saved rows *)



Lemma conflict_keys_of_rows user_id results :
  map conflict_key (map (toRecommendation user_id) results)
  = map (fun r => (user_id, ElasticityResult.product_name r)) results.
Proof. rewrite map_map. reflexivity. Qed.

(** X19: the rows built from the results of one analysis have pairwise
    distinct conflict keys [(user_id, product_name)], so the upsert never
    meets the same key twice in one batch; and there are as many rows as
    results. *)
Theorem saved_rows_distinct_keys (getTime : string -> Z) data results user_id :
  analyzeElasticity getTime data = Returns results ->
  let rows := map (toRecommendation user_id) results in
  NoDup (map conflict_key rows) /\ List.length rows = List.length results.
Proof.
  intros Hres rows. split; [|apply length_map].
  unfold rows. rewrite conflict_keys_of_rows.
  assert (Hnd : NoDup (map ElasticityResult.product_name results)).
  { rewrite analyzeElasticity_eq in Hres.
    destruct (has_inherited_name data); [discriminate|].
    injection Hres as <-.
    apply (results_names_NoDup getTime data).
    - eapply Permutation_NoDup.
      + apply Permutation_map, Permutation_sym, Object_entries_perm.
      + rewrite grouping_keys. apply distinct_names_NoDup.
    - intros e He. apply (Permutation_in _ (Object_entries_perm _)) in He.
      unfold grouping in He. apply in_map_iff in He as (k & <- & _). reflexivity. }
  rewrite <- (map_map ElasticityResult.product_name (fun k => (user_id, k))).
  apply Finite.Injective_map_NoDup; [|exact Hnd].
  intros k k' E. now injection E.
Qed.

(** X20: for the rows built from results, the two slices of the product
    type distribution account for every row, and the elastic slice counts
    the results classified elastic. *)
Theorem distribution_of_saved_rows user_id results :
  let rows := map (toRecommendation user_id) results in
  (elasticProducts rows + inelasticProducts rows = List.length rows)%nat /\
  elasticProducts rows = List.length (filter ElasticityResult.is_elastic results).
Proof.
  cbv zeta. unfold elasticProducts, inelasticProducts.
  induction results as [|r results [IH1 IH2]]; [split; reflexivity|].
  cbn [map filter].
  change (Recommendation.product_type (toRecommendation user_id r))
    with (if ElasticityResult.is_elastic r then "elastic"%string else "inelastic"%string).
  destruct (ElasticityResult.is_elastic r).
  - change ("elastic" =? "elastic")%string with true.
    change ("elastic" =? "inelastic")%string with false.
    cbn [List.length] in *. split; lia.
  - change ("inelastic" =? "elastic")%string with false.
    change ("inelastic" =? "inelastic")%string with true.
    cbn [List.length] in *. split; lia.
Qed.

(** ** Chart labels *)

Lemma substring_0_short n s :
  (String.length s <= n)%nat -> substring 0 n s = s.
Proof.
  revert n. induction s as [|c s IH]; intros n H.
  - now destruct n.
  - destruct n as [|n]; [simpl in H; lia|].
    simpl. f_equal. apply IH. simpl in H. lia.
Qed.

Lemma substring_0_length n s :
  String.length (substring 0 n s) = Nat.min n (String.length s).
Proof.
  revert n. induction s as [|c s IH]; intros n.
  - destruct n; reflexivity.
  - destruct n as [|n]; [reflexivity|]. simpl. now rewrite IH.
Qed.

Lemma string_length_append s t :
  String.length (s ++ t)%string = (String.length s + String.length t)%nat.
Proof. induction s as [|c s IH]; simpl; [reflexivity | now rewrite IH]. Qed.

Lemma string_append_empty s : (s ++ EmptyString)%string = s.
Proof. induction s as [|c s IH]; simpl; [reflexivity | now rewrite IH]. Qed.

(** X21: a product name of at most 15 characters is its own chart label; a
    longer name is cut to its first 15 characters followed by three dots,
    18 characters in all, so that two long names with the same first 15
    characters share one label. *)
Theorem chartLabel_truncation name :
  ((String.length name <= 15)%nat -> chartLabel name = name) /\
  ((15 < String.length name)%nat ->
   chartLabel name = (substring 0 15 name ++ "...")%string /\
   String.length (chartLabel name) = 18%nat /\
   forall other, (15 < String.length other)%nat ->
                 substring 0 15 other = substring 0 15 name ->
                 chartLabel other = chartLabel name).
Proof.
  unfold chartLabel. split; intros H.
  - replace (15 <? String.length name)%nat with false
      by (symmetry; apply Nat.ltb_ge; exact H).
    now rewrite string_append_empty, substring_0_short.
  - replace (15 <? String.length name)%nat with true
      by (symmetry; apply Nat.ltb_lt; exact H).
    split; [reflexivity|]. split.
    + rewrite string_length_append, substring_0_length.
      rewrite Nat.min_l by lia. reflexivity.
    + intros other Ho E.
      replace (15 <? String.length other)%nat with true
        by (symmetry; apply Nat.ltb_lt; exact Ho).
      now rewrite E.
Qed.

(** ** Worked instances of the further properties *)

Lemma halving_date_ordered : StronglySorted (not_later isoTime) series_halving.
Proof.
  rewrite <- halving_sorted. apply Array_sort_sorted.
Qed.

Lemma halving_some : exists r, fst (calculateElasticity isoTime series_halving) = Some r.
Proof. destruct halving_result as (r & Hr & _). now exists r. Qed.

(** On [series_halving] (latest price 100, latest quantity 50). *)
Lemma estimator_revenue_change_closed_form_witness :
  exists r e,
    fst (calculateElasticity isoTime series_halving) = Some r /\
    ElasticityResult.elasticity r = Num e /\
    ElasticityResult.expected_revenue_change r
    = Num ((Rpower (if ElasticityResult.is_elastic r then 0.9 else 1.1) (1 + e) - 1) * 100).
Proof.
  destruct halving_some as (r & Hr).
  destruct (estimator_revenue_change_closed_form isoTime series_halving r 100 50 Hr
              (f_equal SalesDataPoint.price halving_latest)
              (f_equal SalesDataPoint.quantity_sold halving_latest))
    as (e & He & Hv); [lra | lra |].
  exists r, e. auto.
Defined.

(** *** [series_upward] *)








(** A unit cost of 9.5 above the cut price of 9. *)
Lemma optimizePrice_profit_closed_form_witness :
  exists v,
    expected_change (optimizePrice (Num (-2)) (Num 10) (Num 5) (Some (Num 9.5)) (Some profit))
    = Num v /\ v < -100.
Proof.
  destruct (optimizePrice_profit_closed_form (-2) 10 5 9.5 (Some (Num 9.5)) eq_refl)
    as (_ & Hv & Hlt); [lra | lra | lra |].
  eexists. split; [exact Hv|].
  apply Hlt.
  replace (Rltb 1 (Rabs (-2))) with true.
  - simpl. lra.
  - symmetry. apply Rltb_true. unfold Rabs; destruct (Rcase_abs _); lra.
Defined.

Lemma r_squared_closed_form_witness :
  exists r,
    fst (calculateElasticity isoTime series_halving) = Some r /\
    ElasticityResult.r_squared r
    = Num (if Rltb 0 (Syy (regression_set series_halving))
           then Sxy (regression_set series_halving) * Sxy (regression_set series_halving)
                / (Sxx (regression_set series_halving) * Syy (regression_set series_halving))
           else 0).
Proof.
  destruct halving_some as (r & Hr).
  exists r. split; [exact Hr|].
  exact (r_squared_closed_form isoTime series_halving r Hr).
Defined.

Lemma two_usable_observations_witness :
  exists r,
    fst (calculateElasticity isoTime series_halving) = Some r /\
    ElasticityResult.elasticity r = Num ((ln 50 - ln 200) / (ln 100 - ln 50)) /\
    ElasticityResult.r_squared r = Num (if Reqb (ln 200) (ln 50) then 0 else 1).
Proof.
  destruct halving_some as (r & Hr).
  exists r. split; [exact Hr|].
  exact (two_usable_observations isoTime series_halving r _ _ _ _ Hr halving_pts).
Defined.

Lemma unsorted_rev_perm : Permutation series_unsorted (rev series_unsorted).
Proof. apply Permutation_rev. Qed.

Lemma unsorted_distinct_dates : NoDup (map (time_of isoTime) series_unsorted).
Proof.
  change (NoDup [isoTime "2024-02-01"; isoTime "2024-01-01"]).
  constructor; [|constructor; [intros [] | constructor]].
  intros [E|[]]. discriminate E.
Qed.

Lemma result_order_independent_witness :
  calculateElasticity isoTime series_unsorted
  = calculateElasticity isoTime (rev series_unsorted).
Proof.
  exact (result_order_independent isoTime _ _ unsorted_rev_perm unsorted_distinct_dates).
Defined.

Lemma date_ordered_input_witness :
  exists r,
    fst (calculateElasticity isoTime series_halving) = Some r /\
    snd (calculateElasticity isoTime series_halving) = series_halving /\
    ElasticityResult.current_price r = Num 100.
Proof.
  destruct halving_some as (r & Hr).
  destruct (date_ordered_input isoTime series_halving r halving_date_ordered Hr)
    as (Hs & _ & _ & Hp).
  exists r. auto.
Defined.

Lemma analyzeElasticity_returns (getTime : string -> Z) data :
  has_inherited_name data = false ->
  exists results, analyzeElasticity getTime data = Returns results.
Proof. intros H. rewrite analyzeElasticity_eq, H. eauto. Qed.

Lemma analyze_halving :
  exists results, analyzeElasticity isoTime series_halving = Returns results.
Proof. now apply analyzeElasticity_returns. Qed.

Lemma mixed_date_ordered : StronglySorted (not_later isoTime) rows_mixed.
Proof.
  assert (H : Array_sort (byDate isoTime) rows_mixed = rows_mixed)
    by (rewrite Array_sort_by_time; reflexivity).
  rewrite <- H. apply Array_sort_sorted.
Qed.

Lemma analyze_mixed :
  exists results, analyzeElasticity isoTime rows_mixed = Returns results.
Proof. now apply analyzeElasticity_returns. Qed.

Lemma halving_widget r :
  fst (calculateElasticity isoTime series_halving) = Some r ->
  ElasticityResult.product_name r = "Widget"%string.
Proof.
  intros Hr.
  now destruct (date_ordered_result isoTime _ r halving_date_ordered Hr) as (_ & -> & _).
Qed.

(** A product named "constructor" stops the analysis. *)
Lemma analyzeElasticity_throws_witness :
  analyzeElasticity isoTime rows_constructor = Throws_TypeError.
Proof.
  apply (proj2 (analyzeElasticity_throws isoTime rows_constructor)).
  exists (observation 1 1 "constructor" "Tools" "2024-01-01").
  split; [now left | now left].
Defined.

(** The estimate of [series_halving] is among the results of its
    analysis. *)
Lemma analyzeElasticity_per_product_witness :
  exists results r,
    analyzeElasticity isoTime series_halving = Returns results /\
    In r results /\ ElasticityResult.elasticity r = Num (-2).
Proof.
  destruct analyze_halving as (results & Hres).
  destruct halving_result as (r & Hr & He & _).
  exists results, r. split; [exact Hres|]. split; [|exact He].
  apply (proj2 (analyzeElasticity_per_product isoTime series_halving results Hres r)).
  rewrite (halving_widget r Hr). split; [now left | exact Hr].
Defined.

Lemma analyzeElasticity_distinct_products_witness :
  exists results,
    analyzeElasticity isoTime rows_mixed = Returns results /\
    NoDup (map ElasticityResult.product_name results).
Proof.
  destruct analyze_mixed as (results & Hres).
  exists results. split; [exact Hres|].
  exact (proj1 (analyzeElasticity_distinct_products isoTime rows_mixed results Hres)).
Defined.

Lemma analyzeElasticity_date_ordered_witness :
  exists results,
    analyzeElasticity isoTime rows_mixed = Returns results /\
    forall r, In r results ->
      ElasticityResult.category r
      = SalesDataPoint.category
          (hd no_element (observations_of (ElasticityResult.product_name r) rows_mixed)).
Proof.
  destruct analyze_mixed as (results & Hres).
  exists results. split; [exact Hres|].
  intros r Hr.
  exact (proj1 (analyzeElasticity_date_ordered isoTime rows_mixed results
                  mixed_date_ordered Hres r Hr)).
Defined.

Lemma analyzeElasticity_first_appearance_witness :
  exists results,
    analyzeElasticity isoTime series_halving = Returns results /\
    results
    = flat_map (fun key => entry_result isoTime (key, observations_of key series_halving))
               (distinct_names series_halving).
Proof.
  destruct analyze_halving as (results & Hres).
  exists results. split; [exact Hres|].
  apply (analyzeElasticity_first_appearance isoTime series_halving results); [|exact Hres].
  intros item [<-|[<-|[]]]; reflexivity.
Defined.

Lemma analyzeElasticity_index_names_first_witness :
  exists results indexed named,
    analyzeElasticity isoTime rows_mixed = Returns results /\
    results = indexed ++ named /\
    (forall r, In r indexed -> is_array_index (ElasticityResult.product_name r) = true) /\
    (forall r, In r named -> is_array_index (ElasticityResult.product_name r) = false).
Proof.
  destruct analyze_mixed as (results & Hres).
  destruct (analyzeElasticity_index_names_first isoTime rows_mixed results Hres)
    as (indexed & named & H).
  exists results, indexed, named. split; [exact Hres | exact H].
Defined.


Lemma saved_rows_distinct_keys_witness :
  exists results,
    analyzeElasticity isoTime rows_mixed = Returns results /\
    NoDup (map conflict_key (map (toRecommendation "user") results)).
Proof.
  destruct analyze_mixed as (results & Hres).
  exists results. split; [exact Hres|].
  exact (proj1 (saved_rows_distinct_keys isoTime rows_mixed results "user" Hres)).
Defined.

(** Two product names of the mock data. *)
Lemma chartLabel_truncation_witness :
  chartLabel "Gaming Laptop" = "Gaming Laptop"%string /\
  chartLabel "Wireless Headphones" = "Wireless Headph..."%string.
Proof.
  split.
  - apply (proj1 (chartLabel_truncation "Gaming Laptop")). simpl. lia.
  - destruct (proj2 (chartLabel_truncation "Wireless Headphones")) as (H & _);
      [simpl; lia | exact H].
Defined.
